(** * InsightsPanel: importance ranking and top-story selection

    A shallow embedding of [getImportanceScore] and [selectTopStories] of
    [src/components/InsightsPanel.ts], with the properties of the ranking
    that the panel relies on.

    Conventions of the embedding:
    - a JavaScript [number] that carries a score is a rational ([Q]); the
      constants of the source (15, 40, 10, 3, 2.5, 1.5, 50, 0.5, 12,
      3600000) are exact rationals, and arithmetic is exact: rounding of
      IEEE doubles, infinities and NaN are outside the model;
    - counters and times in milliseconds are integers ([Z]);
    - a title is a [string] of 8-bit characters, so [toLowerCase] is the
      ASCII case mapping;
    - [Date.now()] is an input: [getImportanceScore] takes the instant it
      reads, [selectTopStories] takes a clock giving the instant read by
      the i-th call;
    - the functions are given twice: in [InsightsPanel] on values, and in
      [Heap] on a store of objects, where arrays hold addresses and the
      methods that update their receiver write to the store;
    - [Panel] holds the render methods and [updateInsights]: a rendered
      fragment is given by the values its template interpolates, and an
      update by the fields after it and the list of what it did, the
      answers of the sentiment worker and of the summarization service
      being inputs. *)

From Stdlib Require Import Ascii String ZArith QArith Qminmax Lia Lqa List Sorted.
From stdpp Require Import gmap strings list.
From Stdlib Require Import Qround.

Local Open Scope Z_scope.

(** ** Data model *)

Inductive VelocityLevel := normal | elevated | spike | viral.

Record VelocityMetrics := {
  level : VelocityLevel;
  trend : string;
  sourcesPerHour : Q
}.

(** Modelled from the spec: the type [ClusteredEvent] is declared in
    [@/types], which is not part of the sources; the fields are the
    attributes of an "Event Cluster" of the data model, with the names the
    code reads them by.  [firstSeen] is the [getTime()] of the [Date]. *)
Record ClusteredEvent := {
  primaryTitle : string;
  primarySource : string;
  sourceCount : Z;
  firstSeen : Z;
  velocity : option VelocityMetrics;
  isAlert : bool
}.

(** ** Strings: [toLowerCase] and [includes] *)

Definition lower_ascii (a : ascii) : ascii :=
  let n := nat_of_ascii a in
  if ((65 <=? n) && (n <=? 90))%nat then ascii_of_nat (n + 32) else a.

Fixpoint toLowerCase (s : string) : string :=
  match s with
  | EmptyString => EmptyString
  | String a s' => String (lower_ascii a) (toLowerCase s')
  end.

(** [includes s kw]: [kw] occurs in [s] as a contiguous substring. *)
Fixpoint includes (s kw : string) : bool :=
  if String.prefix kw s then true
  else match s with
       | EmptyString => false
       | String _ s' => includes s' kw
       end.

(** ** Scoring *)

Module InsightsPanel.

Definition CRITICAL_KEYWORDS : list string :=
  [ (* Military/Conflict *)
    "war"; "armada"; "military"; "attack"; "invasion"; "strike"; "troops";
    "missile"; "nuclear"; "bomb"; "airstrike"; "artillery"; "combat";
    "offensive"; "deployed";
    (* Crisis/Emergency *)
    "crisis"; "emergency"; "catastrophe"; "disaster"; "collapse";
    "martial law";
    (* Geopolitical flashpoints *)
    "iran"; "russia"; "china"; "taiwan"; "ukraine"; "north korea"; "israel";
    "gaza";
    (* Leadership/Diplomacy at high stakes *)
    "summit"; "sanctions"; "ultimatum"; "threat"; "retaliation";
    "escalation" ]%string.

(** The property key a velocity level is written as. *)
Definition levelKey (l : VelocityLevel) : string :=
  match l with
  | normal => "normal"
  | elevated => "elevated"
  | spike => "spike"
  | viral => "viral"
  end.

(** The object literal [velMultiplier], a [Record<string, number>]. *)
Definition velMultiplier : list (string * Q) :=
  [ ("viral", 3); ("spike", 5 # 2); ("elevated", 3 # 2); ("normal", 1) ]%Q%string.

(** Property access [rec[key]]: the first binding of [key], if any. *)
Fixpoint getProp (rec : list (string * Q)) (key : string) : option Q :=
  match rec with
  | [] => None
  | (k, v) :: rec' => if String.eqb k key then Some v else getProp rec' key
  end.

Definition getImportanceScore (now : Z) (cluster : ClusteredEvent) : Q :=
  let score := 0%Q in
  let titleLower := toLowerCase (primaryTitle cluster) in
  (* Source confirmation *)
  let score := (score + inject_Z (sourceCount cluster) * 15)%Q in
  (* Critical keyword boost *)
  let keywordMatches :=
    List.filter (fun kw => includes titleLower kw) CRITICAL_KEYWORDS in
  let score :=
    if (0 <? length keywordMatches)%nat
    then (score + (40 + inject_Z (Z.of_nat (length keywordMatches)) * 10))%Q
    else score in
  (* Velocity multiplier *)
  let score :=
    (score * default 1%Q
               (getProp velMultiplier
                  (default "normal"%string
                     (levelKey <$> (level <$> velocity cluster)))))%Q in
  (* Alert bonus *)
  let score := if isAlert cluster then (score + 50)%Q else score in
  (* Recency bonus (decay over 12 hours) *)
  let ageMs := now - firstSeen cluster in
  let ageHours := (inject_Z ageMs / 3600000)%Q in
  let recencyMultiplier := Qmax (1 # 2) (1 - ageHours / 12) in
  let score := (score * recencyMultiplier)%Q in
  score.

(** ** Selection *)

(** The filter predicate of [selectTopStories]. *)
Definition isCandidate (c : ClusteredEvent) : bool :=
  (2 <=? sourceCount c)
  || isAlert c
  || match velocity c with
     | Some v => match level v with normal => false | _ => true end
     | None => false
     end.

(** The objects [{ cluster: c, score: ... }] built by the [map]. *)
Record Scored := { cluster : ClusteredEvent; score : Q }.

(** The comparator [(a, b) => b.score - a.score]. *)
Definition byScoreDesc (a b : Scored) : Q := (score b - score a)%Q.

(** [Array.prototype.sort] with a comparator.  The sort is stable, so for a
    consistent comparator its result is determined: an element moves behind
    a neighbour exactly when the comparator is positive on them.  It is
    written here as a stable insertion sort. *)
Fixpoint sortInsert {A} (compareFn : A -> A -> Q) (x : A) (l : list A) : list A :=
  match l with
  | [] => [x]
  | y :: l' =>
      if Qle_bool (compareFn x y) 0 then x :: y :: l'
      else y :: sortInsert compareFn x l'
  end.

Definition sort {A} (compareFn : A -> A -> Q) (l : list A) : list A :=
  foldr (sortInsert compareFn) [] l.

Definition MAX_PER_SOURCE : nat := 3.

(** The [for ... of] loop over [scored], from the state [(selected,
    counts)]; [counts] is the [Map] that the source calls [sourceCount]. *)
Fixpoint selectLoop (maxCount : Z) (scored : list Scored)
    (selected : list ClusteredEvent) (counts : gmap string nat)
    : list ClusteredEvent :=
  match scored with
  | [] => selected
  | s :: rest =>
      let source := primarySource (cluster s) in
      let count := default 0%nat (counts !! source) in
      let '(selected, counts) :=
        if (count <? MAX_PER_SOURCE)%nat
        then (selected ++ [cluster s], <[source := (count + 1)%nat]> counts)
        else (selected, counts) in
      if maxCount <=? Z.of_nat (length selected) then selected
      else selectLoop maxCount rest selected counts
  end.

(** [clock i] is the instant that the i-th call of [Date.now()] returns;
    [map] scores the candidates in index order, one call each. *)
Definition selectTopStories (clock : nat -> Z)
    (clusters : list ClusteredEvent) (maxCount : Z) : list ClusteredEvent :=
  (* Filter: require at least 2 sources OR alert OR elevated+ velocity *)
  let candidates := List.filter isCandidate clusters in
  (* Score and sort *)
  let scored :=
    sort byScoreDesc
      (imap (fun i c => {| cluster := c;
                           score := getImportanceScore (clock i) c |})
            candidates) in
  (* Select with source diversity (max 3 from same primary source) *)
  selectLoop maxCount scored [] ∅.

End InsightsPanel.

(** ** The two functions over a store of objects

    Arrays and clusters are objects at addresses of a store, and an array
    of clusters holds addresses of cluster objects, so that [sort], [push]
    and [Map.set], which update their receiver in place, are writes to the
    store.  The objects [{ cluster, score }] are held in their array as
    pairs: they are created by the [map] and are reachable from that array
    only. *)

Module Heap.

Import InsightsPanel.

Definition loc := positive.

Inductive object :=
| OCluster (c : ClusteredEvent)        (* a ClusteredEvent *)
| OClusters (elems : list loc)         (* a ClusteredEvent[] *)
| OScored (elems : list (loc * Q))     (* an array of { cluster, score } *)
| OCounts (m : gmap string nat).       (* a Map<string, number> *)

Abbreviation store := (gmap loc object).

(** Computations that read and write the store, and fail on an address
    that holds no object of the expected kind. *)
Definition M (A : Type) : Type := store -> option (A * store).

Definition ret {A} (a : A) : M A := fun σ => Some (a, σ).

Definition bind {A B} (m : M A) (k : A -> M B) : M B :=
  fun σ => match m σ with
           | Some (a, σ') => k a σ'
           | None => None
           end.

Definition fail {A} : M A := fun _ => None.

Notation "'do' x <- m ; k" := (bind m (fun x => k))
  (at level 10, x name, m at level 100, k at level 200).
Notation "m ;; k" := (bind m (fun _ => k))
  (at level 100, k at level 200, right associativity).

(** A new object, at an address that holds nothing yet. *)
Definition alloc (o : object) : M loc :=
  fun σ => let l := fresh (dom σ) in Some (l, <[l := o]> σ).

Definition read (l : loc) : M object :=
  fun σ => match σ !! l with
           | Some o => Some (o, σ)
           | None => None
           end.

Definition write (l : loc) (o : object) : M unit :=
  fun σ => match σ !! l with
           | Some _ => Some (tt, <[l := o]> σ)
           | None => None
           end.

Definition readCluster (l : loc) : M ClusteredEvent :=
  do o <- read l;
  match o with OCluster c => ret c | _ => fail end.

Definition readClusters (l : loc) : M (list loc) :=
  do o <- read l;
  match o with OClusters elems => ret elems | _ => fail end.

Definition readScored (l : loc) : M (list (loc * Q)) :=
  do o <- read l;
  match o with OScored elems => ret elems | _ => fail end.

Definition readCounts (l : loc) : M (gmap string nat) :=
  do o <- read l;
  match o with OCounts m => ret m | _ => fail end.

(** [getImportanceScore] reads the fields of the cluster object. *)
Definition getImportanceScore (now : Z) (cluster : loc) : M Q :=
  do c <- readCluster cluster;
  ret (InsightsPanel.getImportanceScore now c).

(** [Array.prototype.filter]: the elements that pass, in a new array. *)
Fixpoint filterElems (callbackFn : loc -> M bool) (elems : list loc)
    : M (list loc) :=
  match elems with
  | [] => ret []
  | x :: elems' =>
      do keep <- callbackFn x;
      do kept <- filterElems callbackFn elems';
      ret (if keep : bool then x :: kept else kept)
  end.

Definition filter (callbackFn : loc -> M bool) (arr : loc) : M loc :=
  do elems <- readClusters arr;
  do kept <- filterElems callbackFn elems;
  alloc (OClusters kept).

(** [Array.prototype.map], from index [i] on: the results, in a new array. *)
Fixpoint mapElems (callbackFn : nat -> loc -> M (loc * Q)) (i : nat)
    (elems : list loc) : M (list (loc * Q)) :=
  match elems with
  | [] => ret []
  | x :: elems' =>
      do y <- callbackFn i x;
      do ys <- mapElems callbackFn (S i) elems';
      ret (y :: ys)
  end.

Definition map (callbackFn : nat -> loc -> M (loc * Q)) (arr : loc) : M loc :=
  do elems <- readClusters arr;
  do mapped <- mapElems callbackFn 0 elems;
  alloc (OScored mapped).

(** [Array.prototype.sort] sorts its receiver in place and returns it. *)
Definition sort (compareFn : loc * Q -> loc * Q -> Q) (arr : loc) : M loc :=
  do elems <- readScored arr;
  write arr (OScored (InsightsPanel.sort compareFn elems));;
  ret arr.

Definition push (arr : loc) (x : loc) : M unit :=
  do elems <- readClusters arr;
  write arr (OClusters (elems ++ [x])).

Definition length (arr : loc) : M nat :=
  do elems <- readClusters arr;
  ret (List.length elems).

(** [map.get(key) || 0] *)
Definition getOrZero (map : loc) (key : string) : M nat :=
  do m <- readCounts map;
  ret (default 0%nat (m !! key)).

Definition set (map : loc) (key : string) (value : nat) : M unit :=
  do m <- readCounts map;
  write map (OCounts (<[key := value]> m)).

(** The comparator [(a, b) => b.score - a.score]. *)
Definition byScoreDesc (a b : loc * Q) : Q := (snd b - snd a)%Q.

Fixpoint selectLoop (maxCount : Z) (scored : list (loc * Q))
    (selected : loc) (sourceCount : loc) : M unit :=
  match scored with
  | [] => ret tt
  | (cluster, _) :: rest =>
      do c <- readCluster cluster;
      let source := primarySource c in
      do count <- getOrZero sourceCount source;
      (if (count <? MAX_PER_SOURCE)%nat
       then push selected cluster;;
            set sourceCount source (count + 1)%nat
       else ret tt);;
      do len <- length selected;
      if maxCount <=? Z.of_nat len then ret tt
      else selectLoop maxCount rest selected sourceCount
  end.

Definition selectTopStories (clock : nat -> Z) (clusters : loc) (maxCount : Z)
    : M loc :=
  (* Filter: require at least 2 sources OR alert OR elevated+ velocity *)
  do candidates <-
    filter (fun c => do c <- readCluster c; ret (isCandidate c)) clusters;
  (* Score and sort *)
  do mapped <-
    map (fun i c => do score <- getImportanceScore (clock i) c;
                    ret (c, score))
        candidates;
  do scored <- sort byScoreDesc mapped;
  (* Select with source diversity (max 3 from same primary source) *)
  do selected <- alloc (OClusters []);
  do sourceCount <- alloc (OCounts ∅);
  do elems <- readScored scored;
  selectLoop maxCount elems selected sourceCount;;
  ret selected.

(** [l] is the address of the cluster [c]. *)
Definition pointsTo (σ : store) (l : loc) (c : ClusteredEvent) : Prop :=
  σ !! l = Some (OCluster c).

(** The pair [y] is the object [{ cluster, score }] that [s] stands for. *)
Definition scoredAt (σ : store) (y : loc * Q) (s : Scored) : Prop :=
  pointsTo σ (fst y) (cluster s) /\ snd y = score s.

(** Every object of [σ] is in [σ'], unchanged. *)
Definition preserved (σ σ' : store) : Prop :=
  forall l o, σ !! l = Some o -> σ' !! l = Some o.

End Heap.

(** ** The score as the specification words it

    These definitions follow the prose of the specification of
    [computeImportance], stage by stage; [getImportanceScore_stages] below
    relates them to the code. *)

Module Spec.

Definition baseScore (c : ClusteredEvent) : Q := inject_Z (sourceCount c) * 15.

(** Number of critical keywords that occur in the lower-cased title. *)
Definition keywordMatches (c : ClusteredEvent) : nat :=
  length (List.filter (includes (toLowerCase (primaryTitle c)))
                      InsightsPanel.CRITICAL_KEYWORDS).

Definition keywordBoost (c : ClusteredEvent) : Q :=
  if (1 <=? keywordMatches c)%nat
  then 40 + 10 * inject_Z (Z.of_nat (keywordMatches c))
  else 0.

Definition velocityFactor (c : ClusteredEvent) : Q :=
  match velocity c with
  | Some v =>
      match level v with
      | viral => 3
      | spike => 5 # 2
      | elevated => 3 # 2
      | normal => 1
      end
  | None => 1
  end.

Definition alertBonus (c : ClusteredEvent) : Q :=
  if isAlert c then 50 else 0.

Definition ageHours (now : Z) (c : ClusteredEvent) : Q :=
  inject_Z (now - firstSeen c) / 3600000.

Definition recencyFactor (now : Z) (c : ClusteredEvent) : Q :=
  Qmax (1 # 2) (1 - ageHours now c / 12).

(** The score before the recency decay is applied. *)
Definition preDecay (c : ClusteredEvent) : Q :=
  (baseScore c + keywordBoost c) * velocityFactor c + alertBonus c.

Definition importance (now : Z) (c : ClusteredEvent) : Q :=
  preDecay c * recencyFactor now c.

End Spec.

(** ** Record updates and sample clusters *)

Definition withSourceCount (n : Z) (c : ClusteredEvent) : ClusteredEvent :=
  {| primaryTitle := primaryTitle c;
     primarySource := primarySource c;
     sourceCount := n;
     firstSeen := firstSeen c;
     velocity := velocity c;
     isAlert := isAlert c |}.

Definition withAlert (b : bool) (c : ClusteredEvent) : ClusteredEvent :=
  {| primaryTitle := primaryTitle c;
     primarySource := primarySource c;
     sourceCount := sourceCount c;
     firstSeen := firstSeen c;
     velocity := velocity c;
     isAlert := b |}.

(** The data model's invariant on a cluster: at least one source. *)
Definition validCluster (c : ClusteredEvent) : Prop := 1 <= sourceCount c.

(** What the alert flag adds to the final score of a cluster: the score of
    the cluster less the score of the same cluster without the flag. *)
Definition alertContribution (now : Z) (c : ClusteredEvent) : Q :=
  InsightsPanel.getImportanceScore now c
  - InsightsPanel.getImportanceScore now (withAlert false c).

Definition hourMs : Z := 3600000.

(** Cluster A of the specification's example, first seen at instant 0. *)
Definition clusterA : ClusteredEvent :=
  {| primaryTitle := "Russia launches missile strike";
     primarySource := "Reuters";
     sourceCount := 3;
     firstSeen := 0;
     velocity := Some {| level := spike; trend := "rising"; sourcesPerHour := 4 |};
     isAlert := true |}.

(** Cluster B of the specification's example. *)
Definition clusterB : ClusteredEvent :=
  {| primaryTitle := "Local weather update";
     primarySource := "AP";
     sourceCount := 2;
     firstSeen := 0;
     velocity := None;
     isAlert := false |}.

(** A title in which the keyword "war" occurs only inside "software". *)
Definition softwareCluster : ClusteredEvent :=
  {| primaryTitle := "New Software Release";
     primarySource := "TechCrunch";
     sourceCount := 2;
     firstSeen := 0;
     velocity := None;
     isAlert := false |}.

(** The words of a title: its maximal runs of characters other than space. *)
Fixpoint splitWords (cur : string) (s : string) : list string :=
  match s with
  | EmptyString => [cur]
  | String a s' =>
      if Ascii.eqb a " " then cur :: splitWords EmptyString s'
      else splitWords (cur +:+ String a EmptyString) s'
  end.

Definition words (s : string) : list string := splitWords EmptyString s.

(** Two clusters that agree on every attribute but [sourceCount]. *)
Definition sameButSourceCount (c1 c2 : ClusteredEvent) : Prop :=
  primaryTitle c1 = primaryTitle c2
  /\ primarySource c1 = primarySource c2
  /\ firstSeen c1 = firstSeen c2
  /\ velocity c1 = velocity c2
  /\ isAlert c1 = isAlert c2.

(** Number of clusters of a list whose primary source is [src]. *)
Definition fromSource (src : string) (l : list ClusteredEvent) : nat :=
  length (filter (fun c => primarySource c = src) l).

(** The order that the comparator [byScoreDesc] sorts by. *)
Definition scoreGe (a b : InsightsPanel.Scored) : Prop :=
  (InsightsPanel.score b <= InsightsPanel.score a)%Q.

(** Non-increasing importance at the instant [now]. *)
Definition importanceGe (now : Z) (a b : ClusteredEvent) : Prop :=
  (InsightsPanel.getImportanceScore now b
   <= InsightsPanel.getImportanceScore now a)%Q.

(** A cluster that fails all three tests of the filter. *)
Definition unremarkable (c : ClusteredEvent) : Prop :=
  sourceCount c < 2
  /\ isAlert c = false
  /\ (velocity c = None \/ exists v, velocity c = Some v /\ level v = normal).

(** Five clusters with one primary source and different source counts. *)
Definition sameSourceFive : list ClusteredEvent :=
  map (fun n => withSourceCount n clusterB) [2; 3; 4; 5; 6].

(** A single-source cluster without alert, at normal velocity. *)
Definition quietCluster : ClusteredEvent :=
  {| primaryTitle := "War declared";
     primarySource := "AP";
     sourceCount := 1;
     firstSeen := 0;
     velocity := Some {| level := normal; trend := "rising"; sourcesPerHour := 0 |};
     isAlert := false |}.

(** A store with three clusters and an array of them. *)
Definition sampleStore : gmap positive Heap.object :=
  list_to_map
    [ (1%positive, Heap.OCluster clusterA);
      (2%positive, Heap.OCluster quietCluster);
      (3%positive, Heap.OCluster clusterB);
      (4%positive, Heap.OClusters [1; 2; 3; 1]%positive) ].

(** ** Rendering and the update cycle

    The render methods build HTML text around a few computed values.  The
    markup is fixed text and is not modelled: a rendered fragment is given
    by the values that the template interpolates, and the empty string by
    [None].  [escapeHtml] is imported from [@/utils/sanitize] and is applied
    to the text of a title or brief after these values are computed. *)

Module Panel.

(** [Math.round]: the nearest integer, a half going upwards. *)
Definition Math_round (x : Q) : Z := Qfloor (x + (1 # 2)).

(** An element [{ label, score }] of the classifier's answer. *)
Record Sentiment := { label : string; score : Q }.

(** What the panel shows. *)
Record SentimentOverview := {
  negPct : Z;
  neuPct : Z;
  posPct : Z;
  negative : Z;
  neutral : Z;
  positive : Z;
  toneLabel : string;
  toneClass : string
}.

Record Stats := {
  multiSource : nat;
  fastMoving : nat;
  alerts : nat;
  alertStat : bool    (* the third stat is rendered *)
}.

Inductive Badge :=
| BadgeConfirmed (sources : Z)
| BadgeMulti (sources : Z)
| BadgeVelocity (l : VelocityLevel) (velIcon : string) (perHour : Q)
| BadgeAlert.

Record Story := {
  sentimentClass : string;
  titleText : string;       (* the argument of [escapeHtml] *)
  ellipsis : bool;          (* "..." follows the title *)
  badges : list Badge;
  badgesRow : bool          (* the row of badges is rendered *)
}.

Record WorldBrief := {
  briefText : string;               (* the argument of [escapeHtml] *)
  providerBadge : option string
}.

Inductive Content :=
| Waiting                 (* Waiting for news data... *)
| NoStories               (* No breaking or multi-source stories yet *)
| Progress (percent : Z) (step total : Z) (message : string)
| Insights (brief : option WorldBrief) (overview : option SentimentOverview)
           (stats : Stats) (breaking : list Story)
| AnalysisFailed.         (* Analysis failed - retrying... *)

(** The answer of [generateSummary]. *)
Record SummaryResult := { summary : string; provider : string; cached : bool }.

(** How the promise of [generateSummary] settles, after the progress
    callback was called with the messages [progress]. *)
Inductive SummaryOutcome :=
| SummaryRejected (progress : list string)
| SummaryResolved (progress : list string) (result : option SummaryResult).

(** What an update does to the world outside the panel's fields. *)
Inductive Event :=
| SetContent (c : Content)
| ClassifySentiment (titles : list string)
| GenerateSummary (titles : list string)
| ConsoleLog (provider : string) (cached : bool)
| ConsoleError.

(** The collaborators of one update: the successive readings of
    [Date.now()], the sentiment worker ([None]: its promise is rejected) and
    the summarization service. *)
Record Env := {
  clock : nat -> Z;
  isAvailable : bool;
  classifySentiment : list string -> option (list Sentiment);
  generateSummary : list string -> SummaryOutcome
}.

(** The fields of the panel. *)
Record State := {
  isHidden : bool;
  lastBriefUpdate : Z;
  cachedBrief : option string;
  briefProvider : option string
}.

Definition BRIEF_COOLDOWN_MS : Z := 120000.

(** The constructor: the panel is hidden on a mobile device. *)
Definition new (isMobileDevice : bool) : State :=
  {| isHidden := isMobileDevice;
     lastBriefUpdate := 0;
     cachedBrief := None;
     briefProvider := None |}.

(** A string or [null] taken as a condition: [null] and the empty string
    are false. *)
Definition truthy (s : option string) : bool :=
  match s with
  | Some EmptyString | None => false
  | Some _ => true
  end.

Definition setProgress (step total : Z) (message : string) : Event :=
  let percent := Math_round (inject_Z step / inject_Z total * 100) in
  SetContent (Progress percent step total message).

Definition renderWorldBrief (st : State) (brief : string) : WorldBrief :=
  {| briefText := brief;
     providerBadge :=
       match briefProvider st with
       | Some p =>
           if truthy (Some p) && negb (String.eqb p "cache") then Some p
           else None
       | None => None
       end |}.

(** [slice(0, 100)] of a title. *)
Fixpoint slice0 (n : nat) (s : string) : string :=
  match n, s with
  | S n', String a s' => String a (slice0 n' s')
  | _, _ => EmptyString
  end.

Definition storyBadges (cluster : ClusteredEvent) : list Badge :=
  let badges := [] in
  let badges :=
    if 3 <=? sourceCount cluster
    then badges ++ [BadgeConfirmed (sourceCount cluster)]
    else if 2 <=? sourceCount cluster
         then badges ++ [BadgeMulti (sourceCount cluster)]
         else badges in
  let badges :=
    match velocity cluster with
    | Some v =>
        match level v with
        | normal => badges
        | l =>
            let velIcon :=
              if String.eqb (trend v) "rising" then "↑"%string
              else EmptyString in
            badges ++ [BadgeVelocity l velIcon (sourcesPerHour v)]
        end
    | None => badges
    end in
  let badges := if isAlert cluster then badges ++ [BadgeAlert] else badges in
  badges.

Definition renderStory (cluster : ClusteredEvent) (sentiment : option Sentiment)
    : Story :=
  let sentimentClass :=
    match sentiment with
    | Some s =>
        if String.eqb (label s) "negative" then "negative"%string
        else if String.eqb (label s) "positive" then "positive"%string
             else "neutral"%string
    | None => "neutral"%string
    end in
  let badges := storyBadges cluster in
  {| sentimentClass := sentimentClass;
     titleText := slice0 100 (primaryTitle cluster);
     ellipsis := (100 <? String.length (primaryTitle cluster))%nat;
     badges := badges;
     badgesRow := (0 <? length badges)%nat |}.

(** [sentiments?.[i]] *)
Definition sentimentAt (sentiments : option (list Sentiment)) (i : nat)
    : option Sentiment :=
  match sentiments with
  | Some l => l !! i
  | None => None
  end.

Definition renderBreakingStories (clusters : list ClusteredEvent)
    (sentiments : option (list Sentiment)) : list Story :=
  imap (fun i cluster => renderStory cluster (sentimentAt sentiments i)) clusters.

Definition countLabel (l : string) (sentiments : list Sentiment) : Z :=
  Z.of_nat (length (List.filter (fun s => String.eqb (label s) l) sentiments)).

Definition renderSentimentOverview (sentiments : option (list Sentiment))
    : option SentimentOverview :=
  match sentiments with
  | None | Some [] => None
  | Some sentiments =>
      let negative := countLabel "negative" sentiments in
      let positive := countLabel "positive" sentiments in
      let neutral := Z.of_nat (length sentiments) - negative - positive in
      let total := Z.of_nat (length sentiments) in
      let negPct := Math_round (inject_Z negative / inject_Z total * 100) in
      let neuPct := Math_round (inject_Z neutral / inject_Z total * 100) in
      let posPct := 100 - negPct - neuPct in
      let '(toneLabel, toneClass) :=
        if positive + neutral <? negative
        then ("Negative"%string, "negative"%string)
        else if negative + neutral <? positive
             then ("Positive"%string, "positive"%string)
             else ("Mixed"%string, "neutral"%string) in
      Some {| negPct := negPct; neuPct := neuPct; posPct := posPct;
              negative := negative; neutral := neutral; positive := positive;
              toneLabel := toneLabel; toneClass := toneClass |}
  end.

Definition isFastMoving (c : ClusteredEvent) : bool :=
  match velocity c with
  | Some v => match level v with normal => false | _ => true end
  | None => false
  end.

Definition renderStats (clusters : list ClusteredEvent) : Stats :=
  let multiSource :=
    length (List.filter (fun c => 2 <=? sourceCount c) clusters) in
  let fastMoving := length (List.filter isFastMoving clusters) in
  let alerts := length (List.filter isAlert clusters) in
  {| multiSource := multiSource;
     fastMoving := fastMoving;
     alerts := alerts;
     alertStat := (0 <? alerts)%nat |}.

Definition renderInsights (st : State) (clusters : list ClusteredEvent)
    (sentiments : option (list Sentiment)) (worldBrief : option string)
    : Event :=
  let briefHtml :=
    match worldBrief with
    | Some brief => if truthy worldBrief then Some (renderWorldBrief st brief)
                    else None
    | None => None
    end in
  let sentimentOverview := renderSentimentOverview sentiments in
  let breakingHtml := renderBreakingStories clusters sentiments in
  let statsHtml := renderStats clusters in
  SetContent (Insights briefHtml sentimentOverview statsHtml breakingHtml).

(** One run of [updateInsights], from the call to the settling of its
    promise, with no other update of the panel in between: the fields
    after it and what it did, in order. *)
Definition updateInsights (env : Env) (st : State)
    (clusters : list ClusteredEvent) : State * list Event :=
  if isHidden st then (st, [])
  else if (length clusters =? 0)%nat then (st, [SetContent Waiting])
  else
    let totalSteps := 3 in
    (* Step 1: Filter and rank stories by composite importance score *)
    let done := [setProgress 1 totalSteps "Ranking important stories..."] in
    let importantClusters :=
      InsightsPanel.selectTopStories (clock env) clusters 8 in
    if (length importantClusters =? 0)%nat
    then (st, done ++ [SetContent NoStories])
    else
      let titles := List.map primaryTitle importantClusters in
      (* Step 2: Analyze sentiment *)
      let done := done ++ [setProgress 2 totalSteps "Analyzing sentiment..."] in
      let '(sentiments, done) :=
        if isAvailable env
        then (classifySentiment env titles, done ++ [ClassifySentiment titles])
        else (None, done) in
      (* Step 3: Generate World Brief (with cooldown) *)
      let worldBrief := cachedBrief st in
      let now :=
        clock env (length (List.filter InsightsPanel.isCandidate clusters)) in
      if negb (truthy worldBrief)
         || (BRIEF_COOLDOWN_MS <? now - lastBriefUpdate st)
      then
        let done :=
          done ++ [setProgress 3 totalSteps "Generating world brief...";
                   GenerateSummary titles] in
        let subProgress progress :=
          List.map (fun msg =>
                      setProgress 3 totalSteps ("Generating brief: " +:+ msg))
                   progress in
        match generateSummary env titles with
        | SummaryResolved progress (Some result) =>
            let st' := {| isHidden := isHidden st;
                          lastBriefUpdate := now;
                          cachedBrief := Some (summary result);
                          briefProvider := Some (provider result) |} in
            (st', done ++ subProgress progress
                    ++ [ConsoleLog (provider result) (cached result);
                        renderInsights st' importantClusters sentiments
                          (Some (summary result))])
        | SummaryResolved progress None =>
            (st, done ++ subProgress progress
                   ++ [renderInsights st importantClusters sentiments worldBrief])
        | SummaryRejected progress =>
            (st, done ++ subProgress progress
                   ++ [ConsoleError; SetContent AnalysisFailed])
        end
      else
        (st, done ++ [setProgress 3 totalSteps "Using cached brief...";
                      renderInsights st importantClusters sentiments worldBrief])
  .

(** The summarization service was asked. *)
Definition asksSummary (e : Event) : bool :=
  match e with GenerateSummary _ => true | _ => false end.

(** The content on display after the events [done], if any was set. *)
Definition shown (done : list Event) : option Content :=
  last (omap (fun e => match e with SetContent c => Some c | _ => None end) done).

End Panel.

(** ** Further record updates *)

Definition withTitle (t : string) (c : ClusteredEvent) : ClusteredEvent :=
  {| primaryTitle := t;
     primarySource := primarySource c;
     sourceCount := sourceCount c;
     firstSeen := firstSeen c;
     velocity := velocity c;
     isAlert := isAlert c |}.

Definition withVelocity (v : option VelocityMetrics) (c : ClusteredEvent)
    : ClusteredEvent :=
  {| primaryTitle := primaryTitle c;
     primarySource := primarySource c;
     sourceCount := sourceCount c;
     firstSeen := firstSeen c;
     velocity := v;
     isAlert := isAlert c |}.

(** The velocity levels, from slowest to fastest. *)
Definition levelRank (l : VelocityLevel) : nat :=
  match l with
  | normal => 0
  | elevated => 1
  | spike => 2
  | viral => 3
  end.

(** Answers of the sentiment worker. *)
Definition mixedSentiments : list Panel.Sentiment :=
  [ {| Panel.label := "negative"; Panel.score := 9 # 10 |};
    {| Panel.label := "positive"; Panel.score := 8 # 10 |};
    {| Panel.label := "POSITIVE"; Panel.score := 7 # 10 |} ].

Definition negativeSentiments : list Panel.Sentiment :=
  [ {| Panel.label := "negative"; Panel.score := 9 # 10 |};
    {| Panel.label := "negative"; Panel.score := 8 # 10 |};
    {| Panel.label := "positive"; Panel.score := 7 # 10 |} ].

(** An event that asks one of the two services. *)
Definition asksSentiment (e : Panel.Event) : bool :=
  match e with Panel.ClassifySentiment _ => true | _ => false end.

Definition callsService (e : Panel.Event) : bool :=
  asksSentiment e || Panel.asksSummary e.

(** Collaborators that answer at once, at the instant [t]. *)
Definition sampleSummary : Panel.SummaryResult :=
  {| Panel.summary := "Tensions rise in several regions.";
     Panel.provider := "groq";
     Panel.cached := false |}.

Definition sampleEnv (t : Z) : Panel.Env :=
  {| Panel.clock := fun _ => t;
     Panel.isAvailable := true;
     Panel.classifySentiment := fun _ => Some mixedSentiments;
     Panel.generateSummary :=
       fun _ => Panel.SummaryResolved ["Trying Groq"%string] (Some sampleSummary) |}.

(** A panel that holds a brief obtained at the instant 1000. *)
Definition briefedPanel : Panel.State :=
  {| Panel.isHidden := false;
     Panel.lastBriefUpdate := 1000;
     Panel.cachedBrief := Some "Markets calm."%string;
     Panel.briefProvider := Some "groq"%string |}.

(** A sequence of updates, one after the other: the fields after the last
    and all that was done. *)
Fixpoint runUpdates (calls : list (Panel.Env * list ClusteredEvent))
    (st : Panel.State) : Panel.State * list Panel.Event :=
  match calls with
  | [] => (st, [])
  | (env, clusters) :: calls' =>
      let '(st', done) := Panel.updateInsights env st clusters in
      let '(st'', done') := runUpdates calls' st' in
      (st'', done ++ done')
  end.

(** ** Properties of the score *)

Section Scoring.

Import InsightsPanel.

Lemma velMultiplier_lookup (c : ClusteredEvent) :
  default 1%Q
    (getProp velMultiplier
       (default "normal"%string (levelKey <$> (level <$> velocity c))))
  = Spec.velocityFactor c.
Proof.
  unfold Spec.velocityFactor.
  destruct (velocity c) as [[[] ? ?]|]; reflexivity.
Qed.

Lemma getImportanceScore_stages (now : Z) (c : ClusteredEvent) :
  (getImportanceScore now c == Spec.importance now c)%Q.
Proof.
  unfold getImportanceScore, Spec.importance, Spec.preDecay.
  rewrite velMultiplier_lookup.
  fold (Spec.ageHours now c). fold (Spec.recencyFactor now c).
  unfold Spec.baseScore, Spec.keywordBoost, Spec.alertBonus, Spec.keywordMatches.
  set (n := length _).
  destruct n as [|n]; destruct (isAlert c); cbn [Nat.ltb Nat.leb]; ring.
Qed.

Lemma velocityFactor_pos (c : ClusteredEvent) : (0 < Spec.velocityFactor c)%Q.
Proof.
  unfold Spec.velocityFactor.
  destruct (velocity c) as [v|]; [destruct (level v)|]; reflexivity.
Qed.

Lemma recencyFactor_half (now : Z) (c : ClusteredEvent) :
  (1 # 2 <= Spec.recencyFactor now c)%Q.
Proof. apply Q.le_max_l. Qed.

Lemma recencyFactor_pos (now : Z) (c : ClusteredEvent) :
  (0 < Spec.recencyFactor now c)%Q.
Proof.
  eapply Qlt_le_trans; [|apply recencyFactor_half]. reflexivity.
Qed.

Lemma decay_alt (now : Z) (c : ClusteredEvent) :
  (1 - Spec.ageHours now c / 12
   == 1 - inject_Z (now - firstSeen c) * (1 # 43200000))%Q.
Proof. unfold Spec.ageHours. field. Qed.

Lemma recencyFactor_stale (now : Z) (c : ClusteredEvent) :
  12 * hourMs <= now - firstSeen c ->
  (Spec.recencyFactor now c == 1 # 2)%Q.
Proof.
  intros Hage. unfold Spec.recencyFactor. apply Q.max_l.
  rewrite decay_alt.
  assert (inject_Z (12 * hourMs) <= inject_Z (now - firstSeen c))%Q as Hq
    by (rewrite <- Zle_Qle; exact Hage).
  change (inject_Z (12 * hourMs)) with (43200000 # 1)%Q in Hq.
  set (x := inject_Z _) in *. clearbody x. lra.
Qed.

Lemma recencyFactor_fresh (c : ClusteredEvent) :
  (Spec.recencyFactor (firstSeen c) c == 1)%Q.
Proof.
  unfold Spec.recencyFactor. rewrite Q.max_r.
  - rewrite decay_alt, Z.sub_diag. reflexivity.
  - rewrite decay_alt, Z.sub_diag. discriminate.
Qed.

Lemma importance_unfold (now : Z) (c : ClusteredEvent) :
  Spec.importance now c
  = (((Spec.baseScore c + Spec.keywordBoost c) * Spec.velocityFactor c
      + Spec.alertBonus c) * Spec.recencyFactor now c)%Q.
Proof. reflexivity. Qed.

Lemma alertBonus_true (c : ClusteredEvent) :
  isAlert c = true -> Spec.alertBonus c = 50%Q.
Proof. unfold Spec.alertBonus. now intros ->. Qed.

Lemma alertBonus_false (c : ClusteredEvent) :
  isAlert c = false -> Spec.alertBonus c = 0%Q.
Proof. unfold Spec.alertBonus. now intros ->. Qed.

Lemma alert_difference (b k v r : Q) :
  (((b + k) * v + 50) * r - ((b + k) * v + 0) * r == 50 * r)%Q.
Proof. ring. Qed.

Lemma keywordBoost_nonneg (c : ClusteredEvent) : (0 <= Spec.keywordBoost c)%Q.
Proof.
  unfold Spec.keywordBoost. destruct (1 <=? _)%nat; [|discriminate].
  assert (0 <= inject_Z (Z.of_nat (Spec.keywordMatches c)))%Q
    by (change 0%Q with (inject_Z 0); rewrite <- Zle_Qle; lia).
  lra.
Qed.

Lemma alertBonus_nonneg (c : ClusteredEvent) : (0 <= Spec.alertBonus c)%Q.
Proof. unfold Spec.alertBonus. destruct (isAlert c); discriminate. Qed.

Lemma preDecay_nonneg (c : ClusteredEvent) :
  0 <= sourceCount c -> (0 <= Spec.preDecay c)%Q.
Proof.
  intros Hn. unfold Spec.preDecay, Spec.baseScore.
  assert (0 <= inject_Z (sourceCount c))%Q as Hq
    by (change 0%Q with (inject_Z 0); rewrite <- Zle_Qle; exact Hn).
  pose proof (keywordBoost_nonneg c) as Hk.
  pose proof (alertBonus_nonneg c) as Ha.
  pose proof (velocityFactor_pos c) as Hv.
  assert (0 <= (inject_Z (sourceCount c) * 15 + Spec.keywordBoost c)
               * Spec.velocityFactor c)%Q.
  { apply Qmult_le_0_compat; lra. }
  lra.
Qed.

(** Each stage reads one attribute of the cluster. *)
Lemma baseScore_ext (c1 c2 : ClusteredEvent) :
  sourceCount c1 = sourceCount c2 -> Spec.baseScore c1 = Spec.baseScore c2.
Proof. unfold Spec.baseScore. now intros ->. Qed.

Lemma keywordBoost_ext (c1 c2 : ClusteredEvent) :
  primaryTitle c1 = primaryTitle c2 ->
  Spec.keywordBoost c1 = Spec.keywordBoost c2.
Proof. unfold Spec.keywordBoost, Spec.keywordMatches. now intros ->. Qed.

Lemma velocityFactor_ext (c1 c2 : ClusteredEvent) :
  velocity c1 = velocity c2 ->
  Spec.velocityFactor c1 = Spec.velocityFactor c2.
Proof. unfold Spec.velocityFactor. now intros ->. Qed.

Lemma alertBonus_ext (c1 c2 : ClusteredEvent) :
  isAlert c1 = isAlert c2 -> Spec.alertBonus c1 = Spec.alertBonus c2.
Proof. unfold Spec.alertBonus. now intros ->. Qed.

Lemma recencyFactor_ext (now : Z) (c1 c2 : ClusteredEvent) :
  firstSeen c1 = firstSeen c2 ->
  Spec.recencyFactor now c1 = Spec.recencyFactor now c2.
Proof. unfold Spec.recencyFactor, Spec.ageHours. now intros ->. Qed.

Lemma preDecay_sourceCount_lt (c1 c2 : ClusteredEvent) :
  sameButSourceCount c1 c2 ->
  sourceCount c1 < sourceCount c2 ->
  (Spec.preDecay c1 < Spec.preDecay c2)%Q.
Proof.
  intros (Ht & _ & _ & Hv & Ha) Hlt. unfold Spec.preDecay.
  rewrite (keywordBoost_ext _ _ Ht), (velocityFactor_ext _ _ Hv),
    (alertBonus_ext _ _ Ha).
  unfold Spec.baseScore.
  assert (inject_Z (sourceCount c1) < inject_Z (sourceCount c2))%Q as Hq
    by (rewrite <- Zlt_Qlt; exact Hlt).
  pose proof (velocityFactor_pos c2) as Hv2.
  set (k := Spec.keywordBoost c2). clearbody k.
  set (a := Spec.alertBonus c2). clearbody a.
  set (v := Spec.velocityFactor c2) in *. clearbody v.
  apply Qplus_lt_l, Qmult_lt_compat_r; [exact Hv2|]. lra.
Qed.

(** C1. The score is built in a fixed order: the base [sourceCount * 15],
    plus the keyword boost [40 + 10 * matches] when at least one keyword
    occurs in the lower-cased title, times the velocity factor (viral 3,
    spike 2.5, elevated 1.5, normal or unset 1), plus 50 for an alert,
    times the recency factor. *)
Theorem getImportanceScore_order (now : Z) (c : ClusteredEvent) :
  (getImportanceScore now c
   == ((Spec.baseScore c + Spec.keywordBoost c) * Spec.velocityFactor c
       + Spec.alertBonus c)
      * Spec.recencyFactor now c)%Q.
Proof.
  unfold getImportanceScore.
  rewrite velMultiplier_lookup.
  fold (Spec.ageHours now c). fold (Spec.recencyFactor now c).
  unfold Spec.baseScore, Spec.keywordBoost, Spec.alertBonus, Spec.keywordMatches.
  set (matches := length _).
  generalize (Spec.velocityFactor c) (Spec.recencyFactor now c)
    (inject_Z (sourceCount c)).
  intros v r n.
  destruct matches as [|m]; destruct (isAlert c); cbn [Nat.ltb Nat.leb]; ring.
Qed.

(** C2, as the specification words it, fails: six hours after it was first
    seen, the alert flag of [clusterA] adds 25 to the score, not 50. *)
Lemma alert_bonus_unscaled_counterexample :
  isAlert clusterA = true
  /\ (alertContribution (6 * hourMs) clusterA == 25)%Q
  /\ ~ (alertContribution (6 * hourMs) clusterA == 50)%Q.
Proof.
  split; [reflexivity|]. split; [vm_compute; reflexivity|].
  intros H. vm_compute in H. discriminate H.
Qed.

(** C2, amended. For a cluster flagged as an alert the bonus of 50 is added
    after the velocity multiplier and before the recency decay: it is not
    scaled by the velocity factor, and it is scaled by the recency factor,
    so that it contributes [50 * max(0.5, 1 - ageHours/12)] to the score. *)
Theorem alert_bonus_scaled_by_recency (now : Z) (c : ClusteredEvent) :
  isAlert c = true ->
  (alertContribution now c == 50 * Spec.recencyFactor now c)%Q.
Proof.
  intros Ha. unfold alertContribution.
  rewrite (getImportanceScore_stages now c),
    (getImportanceScore_stages now (withAlert false c)).
  rewrite !importance_unfold.
  rewrite (baseScore_ext (withAlert false c) c eq_refl),
    (keywordBoost_ext (withAlert false c) c eq_refl),
    (velocityFactor_ext (withAlert false c) c eq_refl),
    (recencyFactor_ext now (withAlert false c) c eq_refl).
  rewrite (alertBonus_true c Ha), (alertBonus_false (withAlert false c) eq_refl).
  apply alert_difference.
Qed.

Lemma alert_bonus_scaled_by_recency_witness :
  (alertContribution (3 * hourMs) clusterA
   == 50 * Spec.recencyFactor (3 * hourMs) clusterA)%Q.
Proof. apply alert_bonus_scaled_by_recency. reflexivity. Defined.

(** C7. Of two clusters that differ in nothing but [sourceCount], scored at
    the same instant, the one with more sources scores strictly higher. *)
Theorem getImportanceScore_sourceCount_lt (now : Z) (c1 c2 : ClusteredEvent) :
  sameButSourceCount c1 c2 ->
  sourceCount c1 < sourceCount c2 ->
  (getImportanceScore now c1 < getImportanceScore now c2)%Q.
Proof.
  intros Hsame Hlt.
  rewrite (getImportanceScore_stages now c1), (getImportanceScore_stages now c2).
  unfold Spec.importance.
  rewrite (recencyFactor_ext now c1 c2) by apply Hsame.
  apply Qmult_lt_compat_r; [apply recencyFactor_pos|].
  now apply preDecay_sourceCount_lt.
Qed.

Lemma getImportanceScore_sourceCount_lt_witness :
  (getImportanceScore (20 * hourMs) (withSourceCount 1 clusterA)
   < getImportanceScore (20 * hourMs) (withSourceCount 2 clusterA))%Q.
Proof.
  apply getImportanceScore_sourceCount_lt.
  - unfold sameButSourceCount. simpl. repeat split; reflexivity.
  - simpl. lia.
Defined.

(** C8. The recency multiplier is [max(0.5, 1 - ageHours/12)], with
    [ageHours] the time since [firstSeen] in hours.  Hence a cluster older
    than twelve hours scores at least half of what it scores at age zero,
    and the score of a cluster never falls below half of its value before
    the decay. *)
Theorem recency_decay_floor (now : Z) (c : ClusteredEvent) :
  validCluster c ->
  (getImportanceScore now c
   == Spec.preDecay c
      * Qmax (1 # 2) (1 - (inject_Z (now - firstSeen c) / 3600000) / 12))%Q
  /\ (12 * hourMs < now - firstSeen c ->
      ((1 # 2) * getImportanceScore (firstSeen c) c
       <= getImportanceScore now c)%Q)
  /\ ((1 # 2) * Spec.preDecay c <= getImportanceScore now c)%Q.
Proof.
  intros Hvalid. split; [exact (getImportanceScore_stages now c)|]. split.
  - intros Hold.
    rewrite (getImportanceScore_stages now c),
      (getImportanceScore_stages (firstSeen c) c).
    unfold Spec.importance.
    rewrite recencyFactor_fresh, recencyFactor_stale by lia.
    apply Qle_lteq. right. ring.
  - rewrite (getImportanceScore_stages now c). unfold Spec.importance.
    rewrite (Qmult_comm (Spec.preDecay c)).
    apply Qmult_le_compat_r; [apply recencyFactor_half|].
    apply preDecay_nonneg. unfold validCluster in Hvalid. lia.
Qed.

Lemma recency_decay_floor_witness :
  ((1 # 2) * getImportanceScore 0 clusterA
   <= getImportanceScore (13 * hourMs) clusterA)%Q
  /\ ((1 # 2) * Spec.preDecay clusterA
      <= getImportanceScore (13 * hourMs) clusterA)%Q.
Proof.
  assert (validCluster clusterA) as Hvalid by (unfold validCluster; simpl; lia).
  destruct (recency_decay_floor (13 * hourMs) clusterA Hvalid)
    as (_ & Hold & Hfloor).
  split; [|exact Hfloor].
  apply Hold. unfold hourMs. simpl. lia.
Defined.

End Scoring.



(** ** Keyword matching *)

Section Keywords.

Import InsightsPanel.

Lemma append_cons (a : ascii) (s t : string) :
  String a s +:+ t = String a (s +:+ t).
Proof. reflexivity. Qed.

Lemma append_nil (t : string) : EmptyString +:+ t = t.
Proof. reflexivity. Qed.

Lemma prefix_append (kw s : string) :
  String.prefix kw s = true <-> exists post, s = kw +:+ post.
Proof.
  revert s. induction kw as [|a kw IH]; intros s.
  - split; [intros _; now exists s | intros _; now destruct s].
  - destruct s as [|b s]; simpl.
    + split; [discriminate | intros [post Hpost]; discriminate Hpost].
    + destruct (ascii_dec a b) as [->|Hne].
      * rewrite IH. split; intros [post Hpost]; exists post;
          rewrite append_cons in *; congruence.
      * split; [discriminate|].
        intros [post Hpost]. rewrite append_cons in Hpost. congruence.
Qed.

Lemma includes_nil (kw : string) :
  includes EmptyString kw = if String.prefix kw EmptyString then true else false.
Proof. reflexivity. Qed.

Lemma includes_cons (a : ascii) (s kw : string) :
  includes (String a s) kw
  = if String.prefix kw (String a s) then true else includes s kw.
Proof. reflexivity. Qed.

(** [includes] decides occurrence as a contiguous substring. *)
Lemma includes_substring (s kw : string) :
  includes s kw = true <-> exists pre post, s = pre +:+ kw +:+ post.
Proof.
  induction s as [|a s IH]; [rewrite includes_nil | rewrite includes_cons].
  - destruct (String.prefix kw EmptyString) eqn:Hp.
    + split; [intros _|reflexivity].
      apply prefix_append in Hp as [post Hpost]. now exists EmptyString, post.
    + split; [discriminate|]. intros (pre & post & Heq).
      destruct pre; [|discriminate Heq]. rewrite append_nil in Heq.
      assert (String.prefix kw EmptyString = true) as Hp'
        by (apply prefix_append; now exists post).
      congruence.
  - destruct (String.prefix kw (String a s)) eqn:Hp.
    + split; [intros _|reflexivity].
      apply prefix_append in Hp as [post Hpost]. now exists EmptyString, post.
    + rewrite IH. split.
      * intros (pre & post & ->). now exists (String a pre), post.
      * intros (pre & post & Heq). destruct pre as [|b pre].
        -- rewrite append_nil in Heq.
           assert (String.prefix kw (String a s) = true) as Hp'
             by (apply prefix_append; now exists post).
           congruence.
        -- rewrite append_cons in Heq. injection Heq as -> ->.
           now exists pre, post.
Qed.

(** C10. Keywords are matched as substrings of the lower-cased title, not
    as whole words: no word of "New Software Release" is a keyword, yet
    "war" occurs inside "software", and the boost [40 + 10 * 1] is applied. *)
Theorem keyword_match_inside_word :
  toLowerCase (primaryTitle softwareCluster) = "new software release"%string
  /\ words "new software release" = ["new"; "software"; "release"]%string
  /\ forallb (fun w => negb (existsb (String.eqb w) CRITICAL_KEYWORDS))
             (words "new software release") = true
  /\ List.filter (includes "new software release") CRITICAL_KEYWORDS
     = ["war"]%string
  /\ (Spec.keywordBoost softwareCluster == 40 + 10 * 1)%Q
  /\ forall now,
       (getImportanceScore now softwareCluster
        == (2 * 15 + (40 + 10 * 1)) * 1
           * Spec.recencyFactor now softwareCluster)%Q.
Proof.
  do 5 (split; [vm_compute; reflexivity|]).
  intros now. rewrite (getImportanceScore_stages now softwareCluster).
  rewrite importance_unfold.
  apply Qmult_comp; [vm_compute; reflexivity | reflexivity].
Qed.

End Keywords.

(** ** Properties of the selection *)

Section Selection.

Import InsightsPanel.

Lemma sortInsert_perm {A} (compareFn : A -> A -> Q) (x : A) (l : list A) :
  sortInsert compareFn x l ≡ₚ x :: l.
Proof.
  induction l as [|y l IH]; simpl; [done|].
  destruct (Qle_bool _ _); [done|]. rewrite IH. apply perm_swap.
Qed.

Lemma sort_perm {A} (compareFn : A -> A -> Q) (l : list A) :
  sort compareFn l ≡ₚ l.
Proof.
  unfold sort. induction l as [|x l IH]; simpl; [done|].
  rewrite sortInsert_perm. by f_equiv.
Qed.

Lemma sortInsert_sorted (x : Scored) (l : list Scored) :
  StronglySorted scoreGe l ->
  StronglySorted scoreGe (sortInsert byScoreDesc x l).
Proof.
  induction 1 as [|y l Hs IH Hall]; simpl.
  - repeat constructor.
  - destruct (Qle_bool (byScoreDesc x y) 0) eqn:Hc.
    + apply Qle_bool_iff in Hc. unfold byScoreDesc in Hc.
      assert (scoreGe x y) as Hxy by (unfold scoreGe; lra).
      constructor; [by constructor|]. constructor; [done|].
      eapply Forall_impl; [exact Hall|].
      unfold scoreGe in *. intros z Hz. lra.
    + assert (~ (byScoreDesc x y <= 0)%Q) as Hn
        by (rewrite <- Qle_bool_iff, Hc; discriminate).
      unfold byScoreDesc in Hn.
      constructor; [exact IH|]. rewrite sortInsert_perm.
      constructor; [unfold scoreGe; lra | exact Hall].
Qed.

Lemma sort_sorted (l : list Scored) : StronglySorted scoreGe (sort byScoreDesc l).
Proof.
  unfold sort. induction l as [|x l IH]; simpl; [constructor|].
  by apply sortInsert_sorted.
Qed.

Lemma StronglySorted_sublist {A} (R : relation A) (l k : list A) :
  l `sublist_of` k -> StronglySorted R k -> StronglySorted R l.
Proof.
  induction 1 as [|x l k Hsub IH|x l k Hsub IH]; intros Hk.
  - constructor.
  - apply StronglySorted_inv in Hk as [Hk Hall]. constructor; [by apply IH|].
    rewrite Forall_forall in *. intros y Hy. apply Hall.
    by eapply elem_of_sublist.
  - apply StronglySorted_inv in Hk as [Hk _]. by apply IH.
Qed.

(** The loop only appends, and what it appends it takes from [scored], in
    the order of [scored]. *)
Lemma selectLoop_extends (maxCount : Z) (scored : list Scored)
    (selected : list ClusteredEvent) (counts : gmap string nat) :
  exists added,
    selectLoop maxCount scored selected counts = selected ++ added
    /\ added `sublist_of` (cluster <$> scored).
Proof.
  revert selected counts.
  induction scored as [|s rest IH]; intros selected counts; simpl.
  - exists []. by rewrite app_nil_r.
  - destruct (_ <? MAX_PER_SOURCE)%nat.
    + destruct (maxCount <=? _).
      * exists [cluster s]. split; [done|]. apply sublist_skip, sublist_nil_l.
      * destruct (IH (selected ++ [cluster s])
                     (<[primarySource (cluster s) :=
                          (default 0%nat (counts !! primarySource (cluster s)) + 1)%nat]>
                        counts))
          as (added & -> & Hsub).
        exists (cluster s :: added). rewrite <- app_assoc.
        split; [done|]. by apply sublist_skip.
    + destruct (maxCount <=? _).
      * exists []. rewrite app_nil_r. split; [done|]. apply sublist_nil_l.
      * destruct (IH selected counts) as (added & -> & Hsub).
        exists added. split; [done|]. by apply sublist_cons.
Qed.

Lemma fromSource_snoc (src : string) (l : list ClusteredEvent) (c : ClusteredEvent) :
  fromSource src (l ++ [c])
  = (fromSource src l + (if decide (primarySource c = src) then 1 else 0))%nat.
Proof.
  unfold fromSource. rewrite filter_app, length_app. f_equal.
  rewrite filter_cons, filter_nil. by destruct (decide _).
Qed.

(** The loop keeps [counts] in step with [selected], and never lets a
    source pass [MAX_PER_SOURCE]. *)
Lemma selectLoop_cap (maxCount : Z) (scored : list Scored)
    (selected : list ClusteredEvent) (counts : gmap string nat) :
  (forall src, default 0%nat (counts !! src) = fromSource src selected) ->
  (forall src, (fromSource src selected <= MAX_PER_SOURCE)%nat) ->
  forall src,
    (fromSource src (selectLoop maxCount scored selected counts)
     <= MAX_PER_SOURCE)%nat.
Proof.
  revert selected counts.
  induction scored as [|s rest IH]; intros selected counts Hcounts Hcap;
    simpl; [done|].
  destruct (_ <? MAX_PER_SOURCE)%nat eqn:Hlt.
  - apply Nat.ltb_lt in Hlt.
    set (source := primarySource (cluster s)) in *.
    set (count := default 0%nat (counts !! source)) in *.
    assert (forall src,
      default 0%nat (<[source := (count + 1)%nat]> counts !! src)
      = fromSource src (selected ++ [cluster s])) as Hcounts'.
    { intros src. rewrite fromSource_snoc. fold source.
      destruct (decide (source = src)) as [<-|Hne].
      - rewrite lookup_insert_eq. simpl. by rewrite <- Hcounts.
      - rewrite lookup_insert_ne by done. rewrite Hcounts. lia. }
    assert (forall src,
      (fromSource src (selected ++ [cluster s]) <= MAX_PER_SOURCE)%nat) as Hcap'.
    { intros src. rewrite fromSource_snoc. fold source.
      destruct (decide (source = src)) as [<-|Hne].
      - rewrite <- Hcounts. fold count. lia.
      - specialize (Hcap src). lia. }
    destruct (maxCount <=? _); [done|]. by apply IH.
  - destruct (maxCount <=? _); [done|]. by apply IH.
Qed.

Lemma cluster_imap_scored (f : nat -> ClusteredEvent -> Q) (l : list ClusteredEvent) :
  cluster <$> imap (fun i c => {| cluster := c; score := f i c |}) l = l.
Proof.
  revert f. induction l as [|c l IH]; intros f; simpl; [done|].
  f_equal. apply (IH (fun i => f (S i))).
Qed.

(** The shape of a result: a subsequence of the candidates, scored and
    sorted by descending score. *)
Lemma selectTopStories_shape (clock : nat -> Z) (clusters : list ClusteredEvent)
    (maxCount : Z) :
  exists scored,
    scored ≡ₚ imap (fun i c => {| cluster := c;
                                  score := getImportanceScore (clock i) c |})
                   (List.filter isCandidate clusters)
    /\ StronglySorted scoreGe scored
    /\ selectTopStories clock clusters maxCount `sublist_of` (cluster <$> scored).
Proof.
  unfold selectTopStories.
  set (scored := sort byScoreDesc _).
  exists scored. split; [apply sort_perm|]. split; [apply sort_sorted|].
  destruct (selectLoop_extends maxCount scored [] ∅) as (added & -> & Hsub).
  exact Hsub.
Qed.

Lemma selectTopStories_candidates (clock : nat -> Z)
    (clusters : list ClusteredEvent) (maxCount : Z) (c : ClusteredEvent) :
  In c (selectTopStories clock clusters maxCount) ->
  In c clusters /\ isCandidate c = true.
Proof.
  intros Hin. apply list_elem_of_In in Hin.
  destruct (selectTopStories_shape clock clusters maxCount)
    as (scored & Hperm & _ & Hsub).
  eapply elem_of_sublist in Hin; [|exact Hsub].
  rewrite Hperm, cluster_imap_scored in Hin.
  apply list_elem_of_In, filter_In in Hin. exact Hin.
Qed.

Lemma unremarkable_not_candidate (c : ClusteredEvent) :
  unremarkable c -> isCandidate c = false.
Proof.
  intros (Hn & Ha & Hv). unfold isCandidate. rewrite Ha.
  replace (2 <=? sourceCount c) with false by (symmetry; apply Z.leb_gt; lia).
  destruct Hv as [->|(v & -> & ->)]; reflexivity.
Qed.

Lemma filter_all (src : string) (l : list ClusteredEvent) :
  Forall (fun c => primarySource c = src) l -> fromSource src l = length l.
Proof.
  unfold fromSource. induction 1 as [|c l Hc Hl IH]; [done|].
  rewrite filter_cons_True by done. simpl. by rewrite IH.
Qed.

(** With [maxCount] at most zero the loop still admits the best candidate
    before it tests the bound. *)
Lemma selectLoop_nonpositive (maxCount : Z) (s : Scored) (rest : list Scored) :
  maxCount <= 0 -> selectLoop maxCount (s :: rest) [] ∅ = [cluster s].
Proof.
  intros Hm. simpl. rewrite lookup_empty. simpl.
  replace (maxCount <=? Z.of_nat 1) with true
    by (symmetry; apply Z.leb_le; lia).
  reflexivity.
Qed.

Lemma selectTopStories_nil (clock : nat -> Z) (maxCount : Z) :
  selectTopStories clock [] maxCount = [].
Proof. reflexivity. Qed.


(** C4. A cluster with fewer than two sources, no alert, and velocity
    missing or at level normal is in no result of [selectTopStories],
    whatever the input list, the bound and the clock, and so whatever its
    score. *)
Theorem unremarkable_never_selected (clock : nat -> Z)
    (clusters : list ClusteredEvent) (maxCount : Z) (c : ClusteredEvent) :
  unremarkable c ->
  ~ In c (selectTopStories clock clusters maxCount).
Proof.
  intros Hc Hin. apply selectTopStories_candidates in Hin as [_ Hcand].
  rewrite (unremarkable_not_candidate c Hc) in Hcand. discriminate Hcand.
Qed.

Lemma unremarkable_never_selected_witness :
  ~ In quietCluster
       (selectTopStories (fun _ => 0) [clusterA; quietCluster; clusterB] 8).
Proof.
  apply unremarkable_never_selected.
  unfold unremarkable. simpl. split; [lia|]. split; [reflexivity|].
  right. eexists. split; reflexivity.
Defined.

(** C5. In every result at most three clusters share a primary source; if
    all the clusters of the input share one, at most three are selected,
    whatever [maxCount]. *)
Theorem source_diversity_cap (clock : nat -> Z) (clusters : list ClusteredEvent)
    (maxCount : Z) (src : string) :
  (fromSource src (selectTopStories clock clusters maxCount) <= 3)%nat
  /\ (Forall (fun c => primarySource c = src) clusters ->
      (length (selectTopStories clock clusters maxCount) <= 3)%nat).
Proof.
  assert (fromSource src (selectTopStories clock clusters maxCount) <= 3)%nat
    as Hcap.
  { unfold selectTopStories. apply selectLoop_cap.
    - intros src'. by rewrite lookup_empty.
    - intros src'. unfold fromSource, MAX_PER_SOURCE. simpl. lia. }
  split; [exact Hcap|]. intros Hall.
  rewrite <- (filter_all src); [exact Hcap|].
  rewrite Forall_forall in *. intros c Hc.
  apply Hall, list_elem_of_In.
  by apply list_elem_of_In, selectTopStories_candidates in Hc as [Hc _].
Qed.

Lemma source_diversity_cap_witness :
  length sameSourceFive = 5%nat
  /\ (length (selectTopStories (fun _ => 0%Z) sameSourceFive 8%Z) <= 3)%nat.
Proof.
  split; [reflexivity|].
  apply (source_diversity_cap (fun _ => 0) sameSourceFive 8 "AP").
  unfold sameSourceFive. simpl. repeat constructor.
Defined.

Example sameSourceFive_selected :
  selectTopStories (fun _ => 0) sameSourceFive 8
  = map (fun n => withSourceCount n clusterB) [6; 5; 4].
Proof. vm_compute. reflexivity. Qed.

(** The example of the specification: cluster A scores higher than cluster
    B and is ranked first. *)
Example clusterA_before_clusterB :
  (getImportanceScore 0 clusterB < getImportanceScore 0 clusterA)%Q
  /\ selectTopStories (fun _ => 0) [clusterB; clusterA] 8 = [clusterA; clusterB].
Proof. split; vm_compute; reflexivity. Qed.

Lemma importance_sorted (now : Z) (scored : list Scored) :
  StronglySorted scoreGe scored ->
  Forall (fun s => score s = getImportanceScore now (cluster s)) scored ->
  StronglySorted (importanceGe now) (cluster <$> scored).
Proof.
  induction 1 as [|s l Hs IH Hall]; intros Hscore; simpl; [constructor|].
  apply Forall_cons in Hscore as [Hs0 Hscore].
  constructor; [by apply IH|].
  rewrite Forall_fmap, Forall_forall in *. intros t Ht. simpl.
  unfold importanceGe. rewrite <- Hs0, <- (Hscore t Ht). by apply Hall.
Qed.

(** C6. With every score taken at the one instant [now], a result is in
    order of non-increasing importance score. *)
Theorem selectTopStories_sorted (now : Z) (clusters : list ClusteredEvent)
    (maxCount : Z) :
  StronglySorted (importanceGe now)
    (selectTopStories (fun _ => now) clusters maxCount).
Proof.
  destruct (selectTopStories_shape (fun _ => now) clusters maxCount)
    as (scored & Hperm & Hsorted & Hsub).
  eapply StronglySorted_sublist; [exact Hsub|].
  apply importance_sorted; [exact Hsorted|].
  rewrite Hperm. clear.
  induction (List.filter isCandidate clusters) as [|c l IH]; simpl;
    constructor; [reflexivity|].
  exact IH.
Qed.

End Selection.

(** ** The store: what the two functions read and write *)

Section Store.

Lemma bind_run {A B} (m : Heap.M A) (k : A -> Heap.M B) σ a σ1 :
  m σ = Some (a, σ1) -> Heap.bind m k σ = k a σ1.
Proof. unfold Heap.bind. now intros ->. Qed.

(** One step of a computation whose first part is known to run as [H]. *)
Tactic Notation "step" open_constr(H) := rewrite (bind_run _ _ _ _ _ H).

Lemma readCluster_run (σ : Heap.store) l c :
  σ !! l = Some (Heap.OCluster c) -> Heap.readCluster l σ = Some (c, σ).
Proof. intros H. unfold Heap.readCluster, Heap.bind, Heap.read. now rewrite H. Qed.

Lemma readClusters_run (σ : Heap.store) l elems :
  σ !! l = Some (Heap.OClusters elems) -> Heap.readClusters l σ = Some (elems, σ).
Proof. intros H. unfold Heap.readClusters, Heap.bind, Heap.read. now rewrite H. Qed.

Lemma readScored_run (σ : Heap.store) l elems :
  σ !! l = Some (Heap.OScored elems) -> Heap.readScored l σ = Some (elems, σ).
Proof. intros H. unfold Heap.readScored, Heap.bind, Heap.read. now rewrite H. Qed.

Lemma readCounts_run (σ : Heap.store) l m :
  σ !! l = Some (Heap.OCounts m) -> Heap.readCounts l σ = Some (m, σ).
Proof. intros H. unfold Heap.readCounts, Heap.bind, Heap.read. now rewrite H. Qed.

Lemma write_run (σ : Heap.store) l o o' :
  σ !! l = Some o -> Heap.write l o' σ = Some (tt, <[l := o']> σ).
Proof. intros H. unfold Heap.write. now rewrite H. Qed.

Lemma alloc_run (σ : Heap.store) o :
  exists l, Heap.alloc o σ = Some (l, <[l := o]> σ) /\ σ !! l = None.
Proof.
  exists (fresh (dom σ)). split; [reflexivity|].
  apply not_elem_of_dom, is_fresh.
Qed.

Lemma preserved_refl (σ : Heap.store) : Heap.preserved σ σ.
Proof. now intros l o. Qed.

Lemma preserved_insert (σ0 σ : Heap.store) l o :
  Heap.preserved σ0 σ -> σ0 !! l = None -> Heap.preserved σ0 (<[l := o]> σ).
Proof.
  intros Hp Hl l' o' Hl'. rewrite lookup_insert_ne by congruence. now apply Hp.
Qed.

Lemma preserved_None (σ0 σ : Heap.store) l :
  Heap.preserved σ0 σ -> σ !! l = None -> σ0 !! l = None.
Proof.
  intros Hp Hl. destruct (σ0 !! l) as [o|] eqn:Ho; [|done].
  apply Hp in Ho. congruence.
Qed.

Lemma getImportanceScore_run (σ : Heap.store) now l c :
  Heap.pointsTo σ l c ->
  Heap.getImportanceScore now l σ
  = Some (InsightsPanel.getImportanceScore now c, σ).
Proof.
  intros H. unfold Heap.getImportanceScore.
  now step (readCluster_run _ _ _ H).
Qed.

Lemma filterElems_run (σ0 σ : Heap.store) refs cs :
  Heap.preserved σ0 σ ->
  Forall2 (Heap.pointsTo σ0) refs cs ->
  exists kept,
    Heap.filterElems
      (fun c => Heap.bind (Heap.readCluster c)
                  (fun c => Heap.ret (InsightsPanel.isCandidate c)))
      refs σ = Some (kept, σ)
    /\ Forall2 (Heap.pointsTo σ0) kept (List.filter InsightsPanel.isCandidate cs)
    /\ kept ⊆ refs.
Proof.
  intros Hp. induction 1 as [|r c refs cs Hr Hrest IH].
  - exists []. repeat split; [constructor | done].
  - destruct IH as (kept & Hrun & Hkept & Hsub).
    exists (if InsightsPanel.isCandidate c then r :: kept else kept).
    split; [|split].
    + cbn [Heap.filterElems].
      rewrite (bind_run _ _ σ (InsightsPanel.isCandidate c) σ)
        by (now step (readCluster_run _ _ _ (Hp _ _ Hr))).
      now step Hrun.
    + cbn [List.filter]. destruct (InsightsPanel.isCandidate c);
        [by constructor | done].
    + destruct (InsightsPanel.isCandidate c);
        [by apply list_subseteq_skip | by apply list_subseteq_cons].
Qed.

Lemma mapElems_run (σ0 σ : Heap.store) clock refs cs i :
  Heap.preserved σ0 σ ->
  Forall2 (Heap.pointsTo σ0) refs cs ->
  exists mapped,
    Heap.mapElems
      (fun i c => Heap.bind (Heap.getImportanceScore (clock i) c)
                    (fun score => Heap.ret (c, score)))
      i refs σ = Some (mapped, σ)
    /\ Forall2 (Heap.scoredAt σ0) mapped
         (imap (fun j c =>
                  {| InsightsPanel.cluster := c;
                     InsightsPanel.score :=
                       InsightsPanel.getImportanceScore (clock (i + j)%nat) c |})
               cs)
    /\ mapped.*1 = refs.
Proof.
  intros Hp Hrefs. revert i.
  induction Hrefs as [|r c refs cs Hr Hrest IH]; intros i.
  - exists []. split; [done|]. split; [constructor | done].
  - destruct (IH (S i)) as (mapped & Hrun & Hmapped & Hfst).
    exists ((r, InsightsPanel.getImportanceScore (clock i) c) :: mapped).
    split; [|split; [|by rewrite fmap_cons, Hfst]].
    + cbn [Heap.mapElems].
      rewrite (bind_run _ _ σ (r, InsightsPanel.getImportanceScore (clock i) c) σ)
        by (now rewrite (bind_run _ _ _ _ _
                           (getImportanceScore_run _ _ _ _ (Hp _ _ Hr)))).
      now step Hrun.
    + rewrite imap_cons. constructor.
      * rewrite Nat.add_0_r. now split.
      * erewrite imap_ext; [exact Hmapped|].
        intros j c' _. simpl. now rewrite Nat.add_succ_r.
Qed.

Lemma sortInsert_scoredAt (σ0 : Heap.store) x s xs ss :
  Heap.scoredAt σ0 x s ->
  Forall2 (Heap.scoredAt σ0) xs ss ->
  Forall2 (Heap.scoredAt σ0)
    (InsightsPanel.sortInsert Heap.byScoreDesc x xs)
    (InsightsPanel.sortInsert InsightsPanel.byScoreDesc s ss).
Proof.
  intros Hx. induction 1 as [|y t xs ss Hy Hrest IH]; simpl.
  - constructor; [exact Hx | constructor].
  - replace (Heap.byScoreDesc x y) with (InsightsPanel.byScoreDesc s t).
    + destruct (Qle_bool _ _).
      * constructor; [exact Hx|]. by constructor.
      * by constructor.
    + unfold Heap.byScoreDesc, InsightsPanel.byScoreDesc.
      destruct Hx as [_ ->], Hy as [_ ->]. reflexivity.
Qed.

Lemma sort_scoredAt (σ0 : Heap.store) xs ss :
  Forall2 (Heap.scoredAt σ0) xs ss ->
  Forall2 (Heap.scoredAt σ0)
    (InsightsPanel.sort Heap.byScoreDesc xs)
    (InsightsPanel.sort InsightsPanel.byScoreDesc ss).
Proof.
  unfold InsightsPanel.sort.
  induction 1; simpl; [constructor|]. by apply sortInsert_scoredAt.
Qed.

Lemma getOrZero_run (σ : Heap.store) map key m :
  σ !! map = Some (Heap.OCounts m) ->
  Heap.getOrZero map key σ = Some (default 0%nat (m !! key), σ).
Proof.
  intros H. unfold Heap.getOrZero.
  now step (readCounts_run _ _ _ H).
Qed.

Lemma set_run (σ : Heap.store) map key value m :
  σ !! map = Some (Heap.OCounts m) ->
  Heap.set map key value σ
  = Some (tt, <[map := Heap.OCounts (<[key := value]> m)]> σ).
Proof.
  intros H. unfold Heap.set.
  step (readCounts_run _ _ _ H).
  now apply write_run with (o := Heap.OCounts m).
Qed.

Lemma push_run (σ : Heap.store) arr x elems :
  σ !! arr = Some (Heap.OClusters elems) ->
  Heap.push arr x σ = Some (tt, <[arr := Heap.OClusters (elems ++ [x])]> σ).
Proof.
  intros H. unfold Heap.push.
  step (readClusters_run _ _ _ H).
  now apply write_run with (o := Heap.OClusters elems).
Qed.

Lemma length_run (σ : Heap.store) arr elems :
  σ !! arr = Some (Heap.OClusters elems) ->
  Heap.length arr σ = Some (length elems, σ).
Proof.
  intros H. unfold Heap.length.
  now step (readClusters_run _ _ _ H).
Qed.

(** The loop over the store follows the loop of [InsightsPanel], and
    writes to the array [selected] and to the map only. *)
Lemma selectLoop_run (σ0 : Heap.store) maxCount selected counts xs ss :
  Forall2 (Heap.scoredAt σ0) xs ss ->
  σ0 !! selected = None -> σ0 !! counts = None -> selected <> counts ->
  forall (σ : Heap.store) sel selP m,
    Heap.preserved σ0 σ ->
    σ !! selected = Some (Heap.OClusters sel) ->
    σ !! counts = Some (Heap.OCounts m) ->
    Forall2 (Heap.pointsTo σ0) sel selP ->
    exists (σ' : Heap.store) sel',
      Heap.selectLoop maxCount xs selected counts σ = Some (tt, σ')
      /\ Heap.preserved σ0 σ'
      /\ σ' !! selected = Some (Heap.OClusters sel')
      /\ Forall2 (Heap.pointsTo σ0) sel'
           (InsightsPanel.selectLoop maxCount ss selP m)
      /\ sel' ⊆ sel ++ xs.*1.
Proof.
  intros Hxs Hsel0 Hcnt0 Hne.
  induction Hxs as [|[cl q] s xs ss [Hcl _] Hrest IH];
    intros σ sel selP m Hp Hsel Hcnt HselP.
  - exists σ, sel. repeat split; try done. by rewrite app_nil_r.
  - cbn [fst InsightsPanel.selectLoop Heap.selectLoop] in *.
    step (readCluster_run _ _ _ (Hp _ _ Hcl)).
    step (getOrZero_run _ _ _ _ Hcnt).
    set (source := primarySource (InsightsPanel.cluster s)).
    set (count := default 0%nat (m !! source)).
    pose proof (Forall2_length _ _ _ HselP) as Hlen.
    destruct (count <? InsightsPanel.MAX_PER_SOURCE)%nat.
    + set (σ1 := <[selected := Heap.OClusters (sel ++ [cl])]> σ).
      set (σ2 := <[counts := Heap.OCounts (<[source := (count + 1)%nat]> m)]> σ1).
      assert (Heap.bind (Heap.push selected cl)
                (fun _ => Heap.set counts source (count + 1)%nat) σ
              = Some (tt, σ2)) as Hstep.
      { step (push_run _ _ _ _ Hsel).
        apply set_run. subst σ1. by rewrite lookup_insert_ne. }
      step Hstep.
      assert (σ2 !! selected = Some (Heap.OClusters (sel ++ [cl]))) as Hsel2.
      { subst σ2 σ1. rewrite lookup_insert_ne by done. apply lookup_insert_eq. }
      assert (Heap.preserved σ0 σ2) as Hp2.
      { apply preserved_insert; [|exact Hcnt0].
        apply preserved_insert; [exact Hp | exact Hsel0]. }
      assert (Forall2 (Heap.pointsTo σ0) (sel ++ [cl])
                (selP ++ [InsightsPanel.cluster s])) as HselP2
        by (apply Forall2_app; [done | by constructor]).
      step (length_run _ _ _ Hsel2).
      rewrite !length_app, Hlen.
      destruct (maxCount <=? _).
      * exists σ2, (sel ++ [cl]). repeat split; try done.
        intros z. rewrite fmap_cons, !elem_of_app, !elem_of_cons, elem_of_nil.
        simpl. tauto.
      * destruct (IH σ2 (sel ++ [cl]) (selP ++ [InsightsPanel.cluster s])
                     (<[source := (count + 1)%nat]> m))
          as (σ' & sel' & Hrun & Hp' & Hsel' & Hrel & Hsub); try done.
        { subst σ2. apply lookup_insert_eq. }
        exists σ', sel'. repeat split; try done.
        rewrite <- app_assoc in Hsub. rewrite fmap_cons. exact Hsub.
    + rewrite (bind_run _ _ σ tt σ) by reflexivity.
      step (length_run _ _ _ Hsel).
      rewrite Hlen.
      destruct (maxCount <=? _).
      * exists σ, sel. repeat split; try done.
        by apply list_subseteq_app_l.
      * destruct (IH σ sel selP m)
          as (σ' & sel' & Hrun & Hp' & Hsel' & Hrel & Hsub); try done.
        exists σ', sel'. repeat split; try done.
        intros z Hz. apply Hsub in Hz. revert Hz.
        rewrite fmap_cons, !elem_of_app, elem_of_cons. tauto.
Qed.

(** C9. Neither function changes what it is given.  [getImportanceScore]
    returns the score and the store as it was.  [selectTopStories] returns
    an array at an address that held nothing before the call; every object
    that was in the store before the call, the input array and the clusters
    among them, is in the store after it, unchanged; and the elements of the
    result are elements of the input: the clusters that [selectTopStories]
    of [InsightsPanel] selects. *)
Theorem ranking_preserves_input (clock : nat -> Z) (σ : Heap.store)
    (clusters : Heap.loc) (refs : list Heap.loc) (cs : list ClusteredEvent)
    (maxCount : Z) :
  σ !! clusters = Some (Heap.OClusters refs) ->
  Forall2 (Heap.pointsTo σ) refs cs ->
  (forall now,
     Forall2 (fun r c =>
                Heap.getImportanceScore now r σ
                = Some (InsightsPanel.getImportanceScore now c, σ))
             refs cs)
  /\ exists (out : Heap.loc) (σ' : Heap.store) (outRefs : list Heap.loc),
       Heap.selectTopStories clock clusters maxCount σ = Some (out, σ')
       /\ Heap.preserved σ σ'
       /\ σ !! out = None
       /\ σ' !! out = Some (Heap.OClusters outRefs)
       /\ outRefs ⊆ refs
       /\ Forall2 (Heap.pointsTo σ) outRefs
            (InsightsPanel.selectTopStories clock cs maxCount).
Proof.
  intros Hin Hrefs. split.
  { intros now. eapply Forall2_impl; [exact Hrefs|].
    intros r c Hr. by apply getImportanceScore_run. }
  unfold Heap.selectTopStories.
  (* filter *)
  destruct (filterElems_run σ σ refs cs (preserved_refl σ) Hrefs)
    as (kept & Hf & Hkept & Hksub).
  destruct (alloc_run σ (Heap.OClusters kept)) as (l1 & Ha1 & Hl1).
  set (σ1 := <[l1 := Heap.OClusters kept]> σ) in *.
  assert (Heap.preserved σ σ1) as Hp1
    by (apply preserved_insert; [apply preserved_refl | exact Hl1]).
  rewrite (bind_run _ _ σ l1 σ1).
  2:{ unfold Heap.filter.
      step (readClusters_run _ _ _ Hin).
      by step Hf. }
  (* map *)
  destruct (mapElems_run σ σ1 clock kept _ 0 Hp1 Hkept)
    as (mapped & Hm & Hmapped & Hfst).
  destruct (alloc_run σ1 (Heap.OScored mapped)) as (l2 & Ha2 & Hl2).
  set (σ2 := <[l2 := Heap.OScored mapped]> σ1) in *.
  assert (Heap.preserved σ σ2) as Hp2
    by (apply preserved_insert;
        [exact Hp1 | exact (preserved_None σ σ1 l2 Hp1 Hl2)]).
  rewrite (bind_run _ _ σ1 l2 σ2).
  2:{ unfold Heap.map.
      rewrite (bind_run _ _ σ1 kept σ1)
        by (apply readClusters_run, lookup_insert_eq).
      by step Hm. }
  (* sort *)
  set (sorted := InsightsPanel.sort Heap.byScoreDesc mapped).
  set (σ3 := <[l2 := Heap.OScored sorted]> σ2).
  assert (Heap.preserved σ σ3) as Hp3
    by (apply preserved_insert;
        [exact Hp2 | exact (preserved_None σ σ1 l2 Hp1 Hl2)]).
  assert (σ3 !! l2 = Some (Heap.OScored sorted)) as Hl2' by apply lookup_insert_eq.
  rewrite (bind_run _ _ σ2 l2 σ3).
  2:{ unfold Heap.sort.
      rewrite (bind_run _ _ σ2 mapped σ2)
        by (apply readScored_run, lookup_insert_eq).
      rewrite (bind_run _ _ σ2 tt σ3); [done|].
      apply write_run with (o := Heap.OScored mapped), lookup_insert_eq. }
  (* the result array and the map *)
  destruct (alloc_run σ3 (Heap.OClusters [])) as (l3 & Ha3 & Hl3).
  set (σ4 := <[l3 := Heap.OClusters []]> σ3) in *.
  step Ha3.
  destruct (alloc_run σ4 (Heap.OCounts ∅)) as (l4 & Ha4 & Hl4).
  set (σ5 := <[l4 := Heap.OCounts ∅]> σ4) in *.
  step Ha4.
  assert (l2 <> l3) as Hne23 by congruence.
  assert (σ4 !! l3 = Some (Heap.OClusters [])) as Hl3' by apply lookup_insert_eq.
  assert (l3 <> l4) as Hne34 by congruence.
  assert (σ4 !! l2 = Some (Heap.OScored sorted)) as Hl2''
    by (subst σ4; by rewrite lookup_insert_ne).
  assert (l2 <> l4) as Hne24 by congruence.
  assert (σ !! l3 = None) as Hl30 by exact (preserved_None σ σ3 l3 Hp3 Hl3).
  assert (Heap.preserved σ σ4) as Hp4 by (by apply preserved_insert).
  assert (σ !! l4 = None) as Hl40 by exact (preserved_None σ σ4 l4 Hp4 Hl4).
  assert (Heap.preserved σ σ5) as Hp5 by (by apply preserved_insert).
  rewrite (bind_run _ _ σ5 sorted σ5).
  2:{ apply readScored_run. subst σ5. by rewrite lookup_insert_ne. }
  (* the loop *)
  destruct (selectLoop_run σ maxCount l3 l4 sorted _
              (sort_scoredAt σ _ _ Hmapped) Hl30 Hl40 Hne34
              σ5 [] [] ∅ Hp5)
    as (σ' & sel' & Hrun & Hp' & Hsel' & Hrel & Hsub).
  { subst σ5. by rewrite lookup_insert_ne. }
  { apply lookup_insert_eq. }
  { constructor. }
  step Hrun.
  exists l3, σ', sel'. repeat split; try done.
  intros z Hz. apply Hksub. rewrite <- Hfst.
  apply Hsub in Hz. simpl in Hz.
  unfold sorted in Hz. by rewrite sort_perm in Hz.
Qed.

Lemma ranking_preserves_input_witness :
  exists (out : Heap.loc) (σ' : Heap.store) (outRefs : list Heap.loc),
    Heap.selectTopStories (fun _ => 0) 4%positive 8 sampleStore = Some (out, σ')
    /\ Heap.preserved sampleStore σ'
    /\ sampleStore !! out = None
    /\ σ' !! out = Some (Heap.OClusters outRefs)
    /\ outRefs ⊆ [1; 2; 3; 1]%positive
    /\ Forall2 (Heap.pointsTo sampleStore) outRefs
         (InsightsPanel.selectTopStories (fun _ => 0)
            [clusterA; quietCluster; clusterB; clusterA] 8).
Proof.
  apply (ranking_preserves_input (fun _ => 0) sampleStore 4%positive
           [1; 2; 3; 1]%positive [clusterA; quietCluster; clusterB; clusterA] 8).
  - vm_compute. reflexivity.
  - repeat constructor.
Defined.

End Store.

(** ** More on the score *)

Section ScoreFacts.

Import InsightsPanel.

Lemma recencyFactor_floor (now : Z) (c : ClusteredEvent) :
  6 * hourMs <= now - firstSeen c ->
  (Spec.recencyFactor now c == 1 # 2)%Q.
Proof.
  intros Hage. unfold Spec.recencyFactor. apply Q.max_l.
  rewrite decay_alt.
  assert (inject_Z (6 * hourMs) <= inject_Z (now - firstSeen c))%Q as Hq
    by (rewrite <- Zle_Qle; exact Hage).
  change (inject_Z (6 * hourMs)) with (21600000 # 1)%Q in Hq.
  set (x := inject_Z _) in *. clearbody x. lra.
Qed.

Lemma recencyFactor_antitone (now1 now2 : Z) (c : ClusteredEvent) :
  now1 <= now2 ->
  (Spec.recencyFactor now2 c <= Spec.recencyFactor now1 c)%Q.
Proof.
  intros Hle. unfold Spec.recencyFactor.
  apply Q.max_le_compat_l. rewrite !decay_alt.
  assert (inject_Z (now1 - firstSeen c) <= inject_Z (now2 - firstSeen c))%Q
    as Hq by (rewrite <- Zle_Qle; lia).
  set (x := inject_Z (now1 - _)) in *. set (y := inject_Z (now2 - _)) in *.
  clearbody x y. lra.
Qed.

Lemma recencyFactor_young (now : Z) (c : ClusteredEvent) :
  firstSeen c <= now -> (Spec.recencyFactor now c <= 1)%Q.
Proof.
  intros Hle. unfold Spec.recencyFactor. apply Q.max_lub; [discriminate|].
  rewrite decay_alt.
  assert (inject_Z 0 <= inject_Z (now - firstSeen c))%Q as Hq
    by (rewrite <- Zle_Qle; lia).
  change (inject_Z 0) with 0%Q in Hq.
  set (x := inject_Z _) in *. clearbody x. lra.
Qed.

(** The score of a cluster with no negative source count is not negative. *)
Theorem getImportanceScore_nonneg (now : Z) (c : ClusteredEvent) :
  0 <= sourceCount c -> (0 <= getImportanceScore now c)%Q.
Proof.
  intros Hn. rewrite (getImportanceScore_stages now c). unfold Spec.importance.
  apply Qmult_le_0_compat; [by apply preDecay_nonneg|].
  apply Qlt_le_weak, recencyFactor_pos.
Qed.

Lemma getImportanceScore_nonneg_witness :
  (0 <= getImportanceScore (3 * hourMs) clusterB)%Q.
Proof. apply getImportanceScore_nonneg. simpl. lia. Defined.

(** The decay ends six hours after [firstSeen]: from then on the score is
    half the score before decay, whatever the instant. *)
Theorem score_constant_after_six_hours (now1 now2 : Z) (c : ClusteredEvent) :
  6 * hourMs <= now1 - firstSeen c ->
  6 * hourMs <= now2 - firstSeen c ->
  (getImportanceScore now1 c == (1 # 2) * Spec.preDecay c)%Q
  /\ (getImportanceScore now1 c == getImportanceScore now2 c)%Q.
Proof.
  intros H1 H2.
  rewrite (getImportanceScore_stages now1 c), (getImportanceScore_stages now2 c).
  unfold Spec.importance.
  rewrite (recencyFactor_floor now1 c H1), (recencyFactor_floor now2 c H2).
  split; [apply Qmult_comm | reflexivity].
Qed.

Lemma score_constant_after_six_hours_witness :
  (getImportanceScore (6 * hourMs) clusterA
   == getImportanceScore (100 * hourMs) clusterA)%Q.
Proof.
  apply (score_constant_after_six_hours (6 * hourMs) (100 * hourMs) clusterA);
    unfold hourMs; simpl; lia.
Defined.

(** A cluster of the data model never scores higher at a later instant. *)
Theorem getImportanceScore_antitone_in_time (now1 now2 : Z) (c : ClusteredEvent) :
  validCluster c ->
  now1 <= now2 ->
  (getImportanceScore now2 c <= getImportanceScore now1 c)%Q.
Proof.
  intros Hvalid Hle.
  rewrite (getImportanceScore_stages now1 c), (getImportanceScore_stages now2 c).
  unfold Spec.importance.
  rewrite !(Qmult_comm (Spec.preDecay c)).
  apply Qmult_le_compat_r; [by apply recencyFactor_antitone|].
  apply preDecay_nonneg. unfold validCluster in Hvalid. lia.
Qed.

Lemma getImportanceScore_antitone_in_time_witness :
  (getImportanceScore (2 * hourMs) clusterA
   <= getImportanceScore hourMs clusterA)%Q.
Proof.
  apply getImportanceScore_antitone_in_time.
  - unfold validCluster. simpl. lia.
  - unfold hourMs. lia.
Defined.

Lemma alert_contribution_recency (now : Z) (c : ClusteredEvent) :
  isAlert c = true ->
  (alertContribution now c == 50 * Spec.recencyFactor now c)%Q.
Proof.
  intros Ha. unfold alertContribution.
  rewrite (getImportanceScore_stages now c),
    (getImportanceScore_stages now (withAlert false c)).
  rewrite !importance_unfold.
  rewrite (baseScore_ext (withAlert false c) c eq_refl),
    (keywordBoost_ext (withAlert false c) c eq_refl),
    (velocityFactor_ext (withAlert false c) c eq_refl),
    (recencyFactor_ext now (withAlert false c) c eq_refl).
  rewrite (alertBonus_true c Ha), (alertBonus_false (withAlert false c) eq_refl).
  apply alert_difference.
Qed.

(** The alert flag adds at least 25 to the score, and at most 50 once the
    cluster has been seen. *)
Theorem alert_bonus_bounds (now : Z) (c : ClusteredEvent) :
  isAlert c = true ->
  (25 <= alertContribution now c)%Q
  /\ (firstSeen c <= now -> (alertContribution now c <= 50)%Q).
Proof.
  intros Ha. rewrite (alert_contribution_recency now c Ha).
  pose proof (recencyFactor_half now c) as Hhalf.
  split.
  - generalize dependent (Spec.recencyFactor now c). intros r Hr. lra.
  - intros Hle. pose proof (recencyFactor_young now c Hle) as Hone.
    generalize dependent (Spec.recencyFactor now c). intros r _ Hr. lra.
Qed.

Lemma alert_bonus_bounds_witness :
  (25 <= alertContribution (4 * hourMs) clusterA)%Q
  /\ (alertContribution (4 * hourMs) clusterA <= 50)%Q.
Proof.
  destruct (alert_bonus_bounds (4 * hourMs) clusterA eq_refl) as [Hlo Hhi].
  split; [exact Hlo|]. apply Hhi. unfold hourMs. simpl. lia.
Defined.

Lemma velocityFactor_withVelocity (v : VelocityMetrics) (c : ClusteredEvent) :
  Spec.velocityFactor (withVelocity (Some v) c)
  = match level v with
    | viral => 3
    | spike => 5 # 2
    | elevated => 3 # 2
    | normal => 1
    end%Q.
Proof. reflexivity. Qed.

Lemma velocityFactor_missing (c : ClusteredEvent) :
  Spec.velocityFactor (withVelocity None c) = 1%Q.
Proof. reflexivity. Qed.

Lemma velocityFactor_rank (v1 v2 : VelocityMetrics) (c : ClusteredEvent) :
  (levelRank (level v1) < levelRank (level v2))%nat ->
  (Spec.velocityFactor (withVelocity (Some v1) c)
   < Spec.velocityFactor (withVelocity (Some v2) c))%Q.
Proof.
  rewrite !velocityFactor_withVelocity.
  destruct (level v1), (level v2); simpl; intros Hlt;
    solve [lia | reflexivity].
Qed.

Lemma velocity_arith (b k v1 v2 a r : Q) :
  (0 < b + k -> v1 < v2 -> 0 < r ->
   ((b + k) * v1 + a) * r < ((b + k) * v2 + a) * r)%Q.
Proof.
  intros Hb Hv Hr. apply Qmult_lt_compat_r; [exact Hr|].
  apply Qplus_lt_l. rewrite !(Qmult_comm (b + k)).
  by apply Qmult_lt_compat_r.
Qed.

Lemma importance_withVelocity (now : Z) (v : option VelocityMetrics)
    (c : ClusteredEvent) :
  (getImportanceScore now (withVelocity v c)
   == ((Spec.baseScore c + Spec.keywordBoost c)
       * Spec.velocityFactor (withVelocity v c)
       + Spec.alertBonus c) * Spec.recencyFactor now c)%Q.
Proof.
  rewrite (getImportanceScore_stages now (withVelocity v c)), importance_unfold.
  rewrite (baseScore_ext (withVelocity v c) c eq_refl),
    (keywordBoost_ext (withVelocity v c) c eq_refl),
    (alertBonus_ext (withVelocity v c) c eq_refl),
    (recencyFactor_ext now (withVelocity v c) c eq_refl).
  reflexivity.
Qed.

(** For a cluster of the data model a faster velocity level gives a
    strictly higher score, all else equal; and a cluster without velocity
    scores as one at level normal. *)
Theorem faster_velocity_scores_higher (now : Z) (c : ClusteredEvent)
    (v0 v1 v2 : VelocityMetrics) :
  validCluster c ->
  level v0 = normal ->
  (levelRank (level v1) < levelRank (level v2))%nat ->
  (getImportanceScore now (withVelocity None c)
   == getImportanceScore now (withVelocity (Some v0) c))%Q
  /\ (getImportanceScore now (withVelocity (Some v1) c)
      < getImportanceScore now (withVelocity (Some v2) c))%Q.
Proof.
  intros Hvalid Hv0 Hrank. rewrite !importance_withVelocity. split.
  - rewrite velocityFactor_missing, velocityFactor_withVelocity, Hv0.
    reflexivity.
  - pose proof (velocityFactor_rank v1 v2 c Hrank) as Hv.
    pose proof (recencyFactor_pos now c) as Hr.
    pose proof (keywordBoost_nonneg c) as Hk.
    assert (0 < Spec.baseScore c)%Q as Hb.
    { unfold Spec.baseScore.
      assert (inject_Z 1 <= inject_Z (sourceCount c))%Q as Hq
        by (rewrite <- Zle_Qle; exact Hvalid).
      change (inject_Z 1) with 1%Q in Hq.
      set (n := inject_Z _) in *. clearbody n. lra. }
    apply velocity_arith; [|exact Hv|exact Hr].
    generalize dependent (Spec.baseScore c).
    generalize dependent (Spec.keywordBoost c). intros k Hk b Hb. lra.
Qed.

Lemma faster_velocity_scores_higher_witness :
  (getImportanceScore hourMs
     (withVelocity (Some {| level := elevated; trend := "rising";
                            sourcesPerHour := 2 |}) clusterB)
   < getImportanceScore hourMs
       (withVelocity (Some {| level := viral; trend := "rising";
                              sourcesPerHour := 9 |}) clusterB))%Q.
Proof.
  apply (faster_velocity_scores_higher hourMs clusterB
           {| level := normal; trend := "stable"; sourcesPerHour := 0 |}).
  - unfold validCluster. simpl. lia.
  - reflexivity.
  - simpl. lia.
Defined.

Lemma keywordBoost_no_title (c : ClusteredEvent) :
  Spec.keywordBoost (withTitle EmptyString c) = 0%Q.
Proof.
  unfold Spec.keywordBoost, Spec.keywordMatches.
  cbn [primaryTitle withTitle]. vm_compute. reflexivity.
Qed.

Lemma keywordBoost_match (c : ClusteredEvent) (kw pre post : string) :
  In kw CRITICAL_KEYWORDS ->
  toLowerCase (primaryTitle c) = pre +:+ kw +:+ post ->
  (50 <= Spec.keywordBoost c)%Q.
Proof.
  intros Hkw Htitle.
  assert (In kw (List.filter (includes (toLowerCase (primaryTitle c)))
                   CRITICAL_KEYWORDS)) as Hin.
  { apply filter_In. split; [exact Hkw|].
    apply includes_substring. by exists pre, post. }
  unfold Spec.keywordBoost, Spec.keywordMatches.
  destruct (List.filter _ CRITICAL_KEYWORDS) as [|k ks]; [destruct Hin|].
  cbn [length Nat.leb].
  assert (inject_Z 1 <= inject_Z (Z.of_nat (S (length ks))))%Q as Hq
    by (rewrite <- Zle_Qle; lia).
  change (inject_Z 1) with 1%Q in Hq.
  set (n := inject_Z _) in *. clearbody n. lra.
Qed.

Lemma velocityFactor_one (c : ClusteredEvent) : (1 <= Spec.velocityFactor c)%Q.
Proof.
  unfold Spec.velocityFactor.
  destruct (velocity c) as [[[] ? ?]|]; discriminate.
Qed.

Lemma keyword_arith (b k v a r : Q) :
  (50 <= k -> 1 <= v -> 1 # 2 <= r ->
   ((b + 0) * v + a) * r + 25 <= ((b + k) * v + a) * r)%Q.
Proof.
  intros Hk Hv Hr.
  assert (50 <= k * v)%Q as Hkv.
  { apply Qle_trans with (k * 1)%Q; [lra|].
    rewrite !(Qmult_comm k). apply Qmult_le_compat_r; lra. }
  assert (25 <= k * v * r)%Q as Hkvr.
  { apply Qle_trans with (k * v * (1 # 2))%Q; [lra|].
    rewrite !(Qmult_comm (k * v)). apply Qmult_le_compat_r; lra. }
  assert (((b + k) * v + a) * r == ((b + 0) * v + a) * r + k * v * r)%Q as ->
    by ring.
  lra.
Qed.

(** A critical keyword anywhere in the title, in any letter case and also
    inside a longer word, raises the score by at least 25 over the score of
    the same cluster with an empty title. *)
Theorem keyword_in_title_raises_score (now : Z) (c : ClusteredEvent)
    (kw pre post : string) :
  In kw CRITICAL_KEYWORDS ->
  toLowerCase (primaryTitle c) = pre +:+ kw +:+ post ->
  (getImportanceScore now (withTitle EmptyString c) + 25
   <= getImportanceScore now c)%Q.
Proof.
  intros Hkw Htitle.
  rewrite (getImportanceScore_stages now c),
    (getImportanceScore_stages now (withTitle EmptyString c)).
  rewrite !importance_unfold.
  rewrite (baseScore_ext (withTitle EmptyString c) c eq_refl),
    (velocityFactor_ext (withTitle EmptyString c) c eq_refl),
    (alertBonus_ext (withTitle EmptyString c) c eq_refl),
    (recencyFactor_ext now (withTitle EmptyString c) c eq_refl),
    keywordBoost_no_title.
  apply keyword_arith.
  - by eapply keywordBoost_match.
  - apply velocityFactor_one.
  - apply recencyFactor_half.
Qed.

Lemma keyword_in_title_raises_score_witness :
  (getImportanceScore hourMs
     (withTitle EmptyString (withTitle "SOFTWARE Update" clusterB)) + 25
   <= getImportanceScore hourMs (withTitle "SOFTWARE Update" clusterB))%Q.
Proof.
  apply (keyword_in_title_raises_score hourMs
           (withTitle "SOFTWARE Update" clusterB) "war" "soft" "e update").
  - simpl. left. reflexivity.
  - reflexivity.
Defined.

End ScoreFacts.

(** ** More on the selection *)

Section SelectionFacts.

Import InsightsPanel.

Lemma selectLoop_length (maxCount : Z) (scored : list Scored)
    (selected : list ClusteredEvent) (counts : gmap string nat) :
  Z.of_nat (length (selectLoop maxCount scored selected counts))
  <= Z.max maxCount (Z.of_nat (length selected) + 1).
Proof.
  revert selected counts.
  induction scored as [|s rest IH]; intros selected counts; simpl; [lia|].
  destruct (_ <? MAX_PER_SOURCE)%nat.
  - destruct (maxCount <=? _) eqn:Hstop.
    + rewrite length_app. simpl. lia.
    + apply Z.leb_gt in Hstop. etransitivity; [apply IH|].
      rewrite length_app in *. simpl in *. lia.
  - destruct (maxCount <=? _) eqn:Hstop; [lia|].
    apply Z.leb_gt in Hstop. etransitivity; [apply IH|]. lia.
Qed.

(** With room for at least one story, no more than [maxCount] are
    returned. *)
Theorem selectTopStories_length (clock : nat -> Z)
    (clusters : list ClusteredEvent) (maxCount : Z) :
  1 <= maxCount ->
  Z.of_nat (length (selectTopStories clock clusters maxCount)) <= maxCount.
Proof.
  intros Hm. unfold selectTopStories.
  etransitivity; [apply selectLoop_length|]. simpl. lia.
Qed.

Lemma selectTopStories_length_witness :
  Z.of_nat (length (selectTopStories (fun _ => 0)
                      [clusterA; clusterB; clusterA; clusterB] 2)) <= 2.
Proof. apply selectTopStories_length. lia. Defined.

Lemma filter_sublist (f : ClusteredEvent -> bool) (l : list ClusteredEvent) :
  List.filter f l `sublist_of` l.
Proof.
  induction l as [|c l IH]; simpl; [constructor|].
  destruct (f c); by constructor.
Qed.

(** A result is a part of the input: no cluster is returned more often
    than the input holds it. *)
Theorem selectTopStories_submseteq (clock : nat -> Z)
    (clusters : list ClusteredEvent) (maxCount : Z) :
  selectTopStories clock clusters maxCount ⊆+ clusters.
Proof.
  destruct (selectTopStories_shape clock clusters maxCount)
    as (scored & Hperm & _ & Hsub).
  etransitivity; [apply sublist_submseteq, Hsub|].
  rewrite Hperm, cluster_imap_scored.
  apply sublist_submseteq, filter_sublist.
Qed.

Lemma selectLoop_head (maxCount : Z) (s : Scored) (rest : list Scored) :
  exists added,
    selectLoop maxCount (s :: rest) [] ∅ = cluster s :: added
    /\ added `sublist_of` (cluster <$> rest).
Proof.
  simpl. rewrite lookup_empty. simpl.
  destruct (maxCount <=? _).
  - exists []. split; [done | apply sublist_nil_l].
  - destruct (selectLoop_extends maxCount rest [cluster s]
                (<[primarySource (cluster s) := 1%nat]> ∅))
      as (added & -> & Hsub).
    by exists added.
Qed.

(** With room for at least one story, the result is empty exactly when no
    cluster of the input passes the filter. *)
Theorem selectTopStories_empty_iff (clock : nat -> Z)
    (clusters : list ClusteredEvent) (maxCount : Z) :
  1 <= maxCount ->
  selectTopStories clock clusters maxCount = []
  <-> Forall (fun c => isCandidate c = false) clusters.
Proof.
  intros _. split.
  - intros Hnil. apply Forall_forall. intros c Hc.
    destruct (isCandidate c) eqn:Hcand; [|done]. exfalso.
    assert (c ∈ List.filter isCandidate clusters) as Hin
      by (apply list_elem_of_In, filter_In; split;
          [by apply list_elem_of_In | done]).
    unfold selectTopStories in Hnil.
    set (scored := sort byScoreDesc _) in Hnil.
    assert (scored ≡ₚ imap (fun i c => {| cluster := c;
                                score := getImportanceScore (clock i) c |})
                          (List.filter isCandidate clusters)) as Hperm
      by apply sort_perm.
    destruct scored as [|s rest].
    + apply Permutation_nil_l in Hperm.
      apply (f_equal length) in Hperm. rewrite length_imap in Hperm.
      destruct (List.filter isCandidate clusters); [by inversion Hin|done].
    + destruct (selectLoop_head maxCount s rest) as (added & Heq & _).
      congruence.
  - intros Hall. unfold selectTopStories.
    replace (List.filter isCandidate clusters) with (@nil ClusteredEvent);
      [done|].
    induction Hall as [|c l Hc Hl IH]; simpl; [done|]. by rewrite Hc.
Qed.

Lemma selectTopStories_empty_iff_witness :
  selectTopStories (fun _ => 0) [quietCluster; quietCluster] 8 = [].
Proof.
  apply selectTopStories_empty_iff; [lia|].
  repeat constructor.
Defined.

Lemma fromSource_app (src : string) (l k : list ClusteredEvent) :
  fromSource src (l ++ k) = (fromSource src l + fromSource src k)%nat.
Proof. unfold fromSource. by rewrite filter_app, length_app. Qed.

Lemma counts_step (selected : list ClusteredEvent) (counts : gmap string nat)
    (c : ClusteredEvent) :
  (forall src, default 0%nat (counts !! src) = fromSource src selected) ->
  forall src,
    default 0%nat
      (<[primarySource c :=
           (default 0%nat (counts !! primarySource c) + 1)%nat]> counts !! src)
    = fromSource src (selected ++ [c]).
Proof.
  intros Hcounts src. rewrite fromSource_snoc.
  destruct (decide (primarySource c = src)) as [<-|Hne].
  - rewrite lookup_insert_eq. simpl. by rewrite <- Hcounts.
  - rewrite lookup_insert_ne by done. rewrite Hcounts. lia.
Qed.

(** The loop passes over a candidate only when its source is full, and
    ends before the list does only when [maxCount] is reached. *)
Lemma selectLoop_complete (maxCount : Z) (scored : list Scored)
    (selected : list ClusteredEvent) (counts : gmap string nat) :
  (forall src, default 0%nat (counts !! src) = fromSource src selected) ->
  maxCount <= Z.of_nat (length (selectLoop maxCount scored selected counts))
  \/ forall s, s ∈ scored ->
       cluster s ∈ selectLoop maxCount scored selected counts
       \/ (MAX_PER_SOURCE
           <= fromSource (primarySource (cluster s))
                (selectLoop maxCount scored selected counts))%nat.
Proof.
  revert selected counts.
  induction scored as [|s rest IH]; intros selected counts Hcounts.
  - right. intros s Hs. by apply elem_of_nil in Hs.
  - cbn [selectLoop].
    destruct (_ <? MAX_PER_SOURCE)%nat eqn:Hlt.
    + destruct (maxCount <=? _) eqn:Hstop.
      * left. by apply Z.leb_le.
      * pose proof (counts_step selected counts (cluster s) Hcounts) as Hc'.
        destruct (IH _ _ Hc') as [Hfull|Hall]; [by left|]. right.
        intros t Ht. apply elem_of_cons in Ht as [->|Ht]; [|by apply Hall].
        left.
        destruct (selectLoop_extends maxCount rest (selected ++ [cluster s])
                    (<[primarySource (cluster s) :=
                         (default 0%nat (counts !! primarySource (cluster s)) + 1)%nat]>
                       counts)) as (added & -> & _).
        rewrite !elem_of_app, list_elem_of_singleton. tauto.
    + apply Nat.ltb_ge in Hlt. destruct (maxCount <=? _) eqn:Hstop.
      * left. by apply Z.leb_le.
      * destruct (IH _ _ Hcounts) as [Hfull|Hall]; [by left|]. right.
        intros t Ht. apply elem_of_cons in Ht as [->|Ht]; [|by apply Hall].
        right.
        destruct (selectLoop_extends maxCount rest selected counts)
          as (added & -> & _).
        rewrite fromSource_app, <- Hcounts. lia.
Qed.

(** When fewer than [maxCount] stories are returned, every cluster that
    passes the filter is either in the result or has a primary source of
    which the result holds three stories. *)
Theorem selectTopStories_complete (clock : nat -> Z)
    (clusters : list ClusteredEvent) (maxCount : Z) (c : ClusteredEvent) :
  Z.of_nat (length (selectTopStories clock clusters maxCount)) < maxCount ->
  In c clusters ->
  isCandidate c = true ->
  In c (selectTopStories clock clusters maxCount)
  \/ fromSource (primarySource c) (selectTopStories clock clusters maxCount)
     = 3%nat.
Proof.
  intros Hshort Hin Hcand.
  assert (fromSource (primarySource c)
            (selectTopStories clock clusters maxCount) <= 3)%nat as Hcap.
  { unfold selectTopStories. apply selectLoop_cap.
    - intros src. by rewrite lookup_empty.
    - intros src. unfold fromSource, MAX_PER_SOURCE. simpl. lia. }
  unfold selectTopStories in *.
  set (scored := sort byScoreDesc _) in *.
  destruct (selectLoop_complete maxCount scored [] ∅) as [Hfull|Hall].
  { intros src. by rewrite lookup_empty. }
  { lia. }
  assert (exists s, s ∈ scored /\ cluster s = c) as (s & Hs & <-).
  { assert (c ∈ cluster <$> scored) as Hc.
    { unfold scored. rewrite sort_perm, cluster_imap_scored.
      apply list_elem_of_In, filter_In. by split. }
    apply list_elem_of_fmap in Hc as (s & -> & Hs). by exists s. }
  destruct (Hall s Hs) as [Hsel|Hsrc].
  - left. by apply list_elem_of_In.
  - right. unfold MAX_PER_SOURCE in Hsrc. lia.
Qed.

Lemma selectTopStories_complete_witness :
  In (withSourceCount 2 clusterB) (selectTopStories (fun _ => 0) sameSourceFive 8)
  \/ fromSource "AP" (selectTopStories (fun _ => 0) sameSourceFive 8) = 3%nat.
Proof.
  apply (selectTopStories_complete (fun _ => 0) sameSourceFive 8
           (withSourceCount 2 clusterB)).
  - vm_compute. reflexivity.
  - simpl. left. reflexivity.
  - reflexivity.
Defined.

(** With room for at least one story and every score taken at the one
    instant [now], the first story of the result scores at least as high
    as every cluster that passes the filter. *)
Theorem selectTopStories_best_first (now : Z) (clusters : list ClusteredEvent)
    (maxCount : Z) (c : ClusteredEvent) :
  1 <= maxCount ->
  In c clusters ->
  isCandidate c = true ->
  exists top rest,
    selectTopStories (fun _ => now) clusters maxCount = top :: rest
    /\ importanceGe now top c.
Proof.
  intros _ Hin Hcand. unfold selectTopStories.
  set (scored := sort byScoreDesc _).
  assert (scored ≡ₚ imap (fun _ c => {| cluster := c;
                              score := getImportanceScore now c |})
                        (List.filter isCandidate clusters)) as Hperm
    by apply sort_perm.
  assert (StronglySorted scoreGe scored) as Hsorted by apply sort_sorted.
  assert (Forall (fun s => score s = getImportanceScore now (cluster s)) scored)
    as Hscore.
  { rewrite Hperm. clear.
    induction (List.filter isCandidate clusters) as [|c l IH]; simpl;
      constructor; [reflexivity | exact IH]. }
  assert (exists s, s ∈ scored /\ cluster s = c) as (s & Hs & <-).
  { assert (c ∈ cluster <$> scored) as Hc.
    { rewrite Hperm, cluster_imap_scored.
      apply list_elem_of_In, filter_In. by split. }
    apply list_elem_of_fmap in Hc as (s & -> & Hs). by exists s. }
  destruct scored as [|s0 rest]; [by apply elem_of_nil in Hs|].
  destruct (selectLoop_head maxCount s0 rest) as (added & -> & _).
  exists (cluster s0), added. split; [done|].
  apply Forall_cons in Hscore as [Hs0 Hrest].
  apply StronglySorted_inv in Hsorted as [_ Hge].
  unfold importanceGe. apply elem_of_cons in Hs as [->|Hs].
  - apply Qle_refl.
  - rewrite Forall_forall in Hge, Hrest.
    rewrite <- Hs0, <- (Hrest s Hs). by apply Hge.
Qed.

Lemma selectTopStories_best_first_witness :
  exists top rest,
    selectTopStories (fun _ => hourMs) [clusterB; clusterA] 8 = top :: rest
    /\ importanceGe hourMs top clusterB.
Proof.
  apply selectTopStories_best_first; [lia | simpl; by left | reflexivity].
Defined.

Lemma sort_sorted_id (l : list Scored) :
  StronglySorted scoreGe l -> sort byScoreDesc l = l.
Proof.
  unfold sort. induction 1 as [|x l Hl IH Hall]; simpl; [done|].
  rewrite IH. destruct l as [|y l']; simpl; [done|].
  apply Forall_cons in Hall as [Hxy _]. unfold scoreGe in Hxy.
  replace (Qle_bool (byScoreDesc x y) 0) with true; [done|].
  symmetry. apply Qle_bool_iff. unfold byScoreDesc. lra.
Qed.

Lemma selectTopStories_sorted_at (now : Z) (clusters : list ClusteredEvent)
    (maxCount : Z) :
  StronglySorted (importanceGe now)
    (selectTopStories (fun _ => now) clusters maxCount).
Proof.
  destruct (selectTopStories_shape (fun _ => now) clusters maxCount)
    as (scored & Hperm & Hsorted & Hsub).
  eapply StronglySorted_sublist; [exact Hsub|].
  apply importance_sorted; [exact Hsorted|].
  rewrite Hperm. clear.
  induction (List.filter isCandidate clusters) as [|c l IH]; simpl;
    constructor; [reflexivity | exact IH].
Qed.

Lemma filter_candidates_id (l : list ClusteredEvent) :
  Forall (fun c => isCandidate c = true) l -> List.filter isCandidate l = l.
Proof.
  induction 1 as [|c l Hc Hl IH]; simpl; [done|]. by rewrite Hc, IH.
Qed.

Lemma imap_scored_fmap (now : Z) (l : list ClusteredEvent) :
  imap (fun _ c => {| cluster := c; score := getImportanceScore now c |}) l
  = (fun c => {| cluster := c; score := getImportanceScore now c |}) <$> l.
Proof. induction l as [|c l IH]; simpl; [done|]. f_equal. exact IH. Qed.

(** The loop returns the whole of a list that respects the cap per source
    and that is no longer than [maxCount], or has one element. *)
Lemma selectLoop_all (maxCount : Z) (f : ClusteredEvent -> Scored)
    (l selected : list ClusteredEvent) (counts : gmap string nat) :
  (forall c, cluster (f c) = c) ->
  (forall src, default 0%nat (counts !! src) = fromSource src selected) ->
  (forall src, (fromSource src (selected ++ l) <= MAX_PER_SOURCE)%nat) ->
  (length l <= 1)%nat
  \/ Z.of_nat (length (selected ++ l)) <= maxCount ->
  selectLoop maxCount (f <$> l) selected counts = selected ++ l.
Proof.
  intros Hf. revert selected counts.
  induction l as [|c l IH]; intros selected counts Hcounts Hcap Hlen.
  - simpl. by rewrite app_nil_r.
  - cbn [fmap list_fmap selectLoop]. rewrite Hf.
    replace (_ <? MAX_PER_SOURCE)%nat with true.
    2:{ symmetry. apply Nat.ltb_lt. rewrite Hcounts.
        specialize (Hcap (primarySource c)).
        rewrite fromSource_app in Hcap.
        change (c :: l) with ([c] ++ l) in Hcap.
        rewrite fromSource_app in Hcap.
        unfold fromSource at 2 in Hcap.
        rewrite filter_cons_True in Hcap by done. simpl in Hcap. lia. }
    rewrite length_app in *. simpl in *.
    destruct (maxCount <=? _) eqn:Hstop.
    + apply Z.leb_le in Hstop.
      assert (l = []) as -> by (destruct l; [done | simpl in *; lia]).
      done.
    + apply Z.leb_gt in Hstop.
      rewrite (IH (selected ++ [c])); [by rewrite <- app_assoc |..].
      * by apply counts_step.
      * intros src. rewrite <- app_assoc. apply Hcap.
      * rewrite !length_app. simpl.
        destruct Hlen as [Hlen|Hlen]; [left; lia | right; lia].
Qed.

(** Selecting again from a result, at the same instant and with the same
    bound, returns the result as it is. *)
Theorem selectTopStories_idempotent (now : Z) (clusters : list ClusteredEvent)
    (maxCount : Z) :
  selectTopStories (fun _ => now)
    (selectTopStories (fun _ => now) clusters maxCount) maxCount
  = selectTopStories (fun _ => now) clusters maxCount.
Proof.
  set (out := selectTopStories (fun _ => now) clusters maxCount).
  assert (Forall (fun c => isCandidate c = true) out) as Hcand.
  { apply Forall_forall. intros c Hc.
    by apply list_elem_of_In, selectTopStories_candidates in Hc as [_ Hc]. }
  assert (StronglySorted (importanceGe now) out) as Hsorted
    by apply selectTopStories_sorted_at.
  assert (forall src, (fromSource src out <= MAX_PER_SOURCE)%nat) as Hcap.
  { intros src. unfold out, selectTopStories. apply selectLoop_cap.
    - intros src'. by rewrite lookup_empty.
    - intros src'. unfold fromSource, MAX_PER_SOURCE. simpl. lia. }
  assert (Z.of_nat (length out) <= Z.max maxCount 1) as Hlen.
  { unfold out, selectTopStories.
    etransitivity; [apply selectLoop_length|]. simpl. lia. }
  unfold selectTopStories at 1.
  rewrite (filter_candidates_id out Hcand), imap_scored_fmap.
  rewrite sort_sorted_id.
  - apply (selectLoop_all maxCount _ out [] ∅);
      [done | intros src; by rewrite lookup_empty | exact Hcap | simpl; lia].
  - clear -Hsorted. induction Hsorted as [|c l Hl IH Hall]; simpl;
      constructor; [exact IH|].
    rewrite Forall_fmap. eapply Forall_impl; [exact Hall|].
    intros d Hd. exact Hd.
Qed.





End SelectionFacts.

(** ** Rendering *)

Section Rendering.

Lemma Math_round_mono (x y : Q) :
  (x <= y)%Q -> Panel.Math_round x <= Panel.Math_round y.
Proof.
  intros Hxy. unfold Panel.Math_round. apply Qfloor_resp_le. lra.
Qed.

Lemma Math_round_Z (n : Z) : Panel.Math_round (inject_Z n) = n.
Proof.
  unfold Panel.Math_round.
  pose proof (Qfloor_le (inject_Z n + (1 # 2))) as Hlo.
  pose proof (Qlt_floor (inject_Z n + (1 # 2))) as Hhi.
  rewrite inject_Z_plus in Hhi. change (inject_Z 1) with 1%Q in Hhi.
  set (m := Qfloor _) in *. clearbody m.
  assert (inject_Z m <= inject_Z m)%Q as Hmm by apply Qle_refl.
  assert (inject_Z n <= inject_Z n)%Q as Hnn by apply Qle_refl.
  destruct (Z_lt_le_dec m n) as [Hlt|Hge].
  - exfalso. assert (inject_Z (m + 1) <= inject_Z n)%Q as Hq
      by (rewrite <- Zle_Qle; lia).
    rewrite inject_Z_plus in Hq. change (inject_Z 1) with 1%Q in Hq.
    generalize dependent (inject_Z n). generalize dependent (inject_Z m).
    intros a ? b ? ? ? ?. lra.
  - destruct (Z_lt_le_dec n m) as [Hlt|Hle]; [|lia].
    exfalso. assert (inject_Z (n + 1) <= inject_Z m)%Q as Hq
      by (rewrite <- Zle_Qle; lia).
    rewrite inject_Z_plus in Hq. change (inject_Z 1) with 1%Q in Hq.
    generalize dependent (inject_Z n). generalize dependent (inject_Z m).
    intros a ? b ? ? ? ?. lra.
Qed.

Lemma percentage_bounds (k total : Z) :
  0 < total -> 0 <= k <= total ->
  (0 <= inject_Z k / inject_Z total * 100 <= 100)%Q.
Proof.
  intros Ht [Hk0 Hk].
  assert (0 < inject_Z total)%Q as Htq
    by (change 0%Q with (inject_Z 0); by rewrite <- Zlt_Qlt).
  assert (0 <= inject_Z k)%Q as Hk0q
    by (change 0%Q with (inject_Z 0); by rewrite <- Zle_Qle).
  assert (inject_Z k <= inject_Z total)%Q as Hkq by (by rewrite <- Zle_Qle).
  assert (0 <= inject_Z k / inject_Z total)%Q as Hlo
    by (apply Qle_shift_div_l; [done | lra]).
  assert (inject_Z k / inject_Z total <= 1)%Q as Hhi
    by (apply Qle_shift_div_r; [done | lra]).
  set (x := (inject_Z k / inject_Z total)%Q) in *. clearbody x. lra.
Qed.

Lemma percent_bounds (k total : Z) :
  0 < total -> 0 <= k <= total ->
  0 <= Panel.Math_round (inject_Z k / inject_Z total * 100) <= 100.
Proof.
  intros Ht Hk. destruct (percentage_bounds k total Ht Hk) as [Hlo Hhi].
  split.
  - change 0 with (Panel.Math_round (inject_Z 0)) at 1.
    by apply Math_round_mono.
  - rewrite <- (Math_round_Z 100). by apply Math_round_mono.
Qed.

(** A progress bar is between 0 and 100 per cent wide, and 100 per cent
    at the last step. *)
Theorem setProgress_percent (step total : Z) (message : string) :
  0 < total -> 0 <= step <= total ->
  exists percent,
    Panel.setProgress step total message
    = Panel.SetContent (Panel.Progress percent step total message)
    /\ 0 <= percent <= 100
    /\ (step = total -> percent = 100).
Proof.
  intros Ht Hs. eexists. split; [reflexivity|]. split.
  - by apply percent_bounds.
  - intros ->.
    assert (inject_Z total / inject_Z total * 100 == inject_Z 100)%Q as Heq.
    { assert (0 < inject_Z total)%Q as Htq
        by (change 0%Q with (inject_Z 0); by rewrite <- Zlt_Qlt).
      change (inject_Z 100) with 100%Q. field. lra. }
    unfold Panel.Math_round. rewrite Heq. apply Math_round_Z.
Qed.

Lemma setProgress_percent_witness :
  exists percent,
    Panel.setProgress 2 3 "Analyzing sentiment..."
    = Panel.SetContent (Panel.Progress percent 2 3 "Analyzing sentiment...")
    /\ 0 <= percent <= 100
    /\ (2 = 3 -> percent = 100).
Proof. apply setProgress_percent; lia. Defined.

Lemma countLabel_nonneg (l : string) (sentiments : list Panel.Sentiment) :
  0 <= Panel.countLabel l sentiments.
Proof. unfold Panel.countLabel. lia. Qed.

Lemma countLabel_disjoint (a b : string) (sentiments : list Panel.Sentiment) :
  a <> b ->
  Panel.countLabel a sentiments + Panel.countLabel b sentiments
  <= Z.of_nat (length sentiments).
Proof.
  intros Hab. unfold Panel.countLabel.
  induction sentiments as [|s l IH]; [simpl; lia|].
  cbn [List.filter length].
  destruct (String.eqb (Panel.label s) a) eqn:Ha;
    destruct (String.eqb (Panel.label s) b) eqn:Hb; cbn [length]; try lia.
  apply String.eqb_eq in Ha, Hb. congruence.
Qed.

Lemma round_sum (x y : Q) :
  (x + y <= 100)%Q -> Panel.Math_round x + Panel.Math_round y <= 101.
Proof.
  intros Hxy. unfold Panel.Math_round.
  pose proof (Qfloor_le (x + (1 # 2))) as Hx.
  pose proof (Qfloor_le (y + (1 # 2))) as Hy.
  set (m := Qfloor (x + _)) in *. set (n := Qfloor (y + _)) in *.
  clearbody m n.
  assert (inject_Z (m + n) <= inject_Z 101)%Q as Hq.
  { rewrite inject_Z_plus. change (inject_Z 101) with 101%Q.
    generalize dependent (inject_Z m). generalize dependent (inject_Z n).
    intros b ? a ?. lra. }
  by rewrite <- Zle_Qle in Hq.
Qed.

Lemma percentage_sum (j k total : Z) :
  0 < total -> j + k <= total ->
  (inject_Z j / inject_Z total * 100 + inject_Z k / inject_Z total * 100
   <= 100)%Q.
Proof.
  intros Ht Hjk.
  assert (0 < inject_Z total)%Q as Htq
    by (change 0%Q with (inject_Z 0); by rewrite <- Zlt_Qlt).
  assert (inject_Z j + inject_Z k <= inject_Z total)%Q as Hq
    by (rewrite <- inject_Z_plus, <- Zle_Qle; lia).
  assert (inject_Z j / inject_Z total * 100 + inject_Z k / inject_Z total * 100
          == (inject_Z j + inject_Z k) / inject_Z total * 100)%Q as ->
    by (field; lra).
  assert ((inject_Z j + inject_Z k) / inject_Z total <= 1)%Q as Hhi
    by (apply Qle_shift_div_r; [done | lra]).
  set (x := ((inject_Z j + inject_Z k) / inject_Z total)%Q) in *.
  clearbody x. lra.
Qed.

(** The shape of an overview: the counts of a non-empty answer. *)
Lemma renderSentimentOverview_Some (sentiments : option (list Panel.Sentiment))
    (v : Panel.SentimentOverview) :
  Panel.renderSentimentOverview sentiments = Some v ->
  exists l,
    sentiments = Some l
    /\ 0 < Z.of_nat (length l)
    /\ Panel.negative v = Panel.countLabel "negative" l
    /\ Panel.positive v = Panel.countLabel "positive" l
    /\ Panel.neutral v
       = Z.of_nat (length l) - Panel.negative v - Panel.positive v
    /\ Panel.negPct v
       = Panel.Math_round
           (inject_Z (Panel.negative v) / inject_Z (Z.of_nat (length l)) * 100)
    /\ Panel.neuPct v
       = Panel.Math_round
           (inject_Z (Panel.neutral v) / inject_Z (Z.of_nat (length l)) * 100)
    /\ Panel.posPct v = 100 - Panel.negPct v - Panel.neuPct v
    /\ Panel.toneLabel v
       = if Panel.positive v + Panel.neutral v <? Panel.negative v
         then "Negative"%string
         else if Panel.negative v + Panel.neutral v <? Panel.positive v
              then "Positive"%string else "Mixed"%string.
Proof.
  destruct sentiments as [[|s l]|]; [discriminate| |discriminate].
  unfold Panel.renderSentimentOverview.
  remember (s :: l) as all eqn:Hall.
  assert (0 < Z.of_nat (length all)) as Hlen by (subst all; simpl; lia).
  destruct (_ <? Panel.countLabel "negative" all) eqn:Hneg;
    [|destruct (_ <? Panel.countLabel "positive" all) eqn:Hpos];
    intros [= <-]; exists all; cbn [Panel.negative Panel.positive Panel.neutral
      Panel.negPct Panel.neuPct Panel.posPct Panel.toneLabel];
    rewrite ?Hneg, ?Hpos; repeat split; done.
Qed.

(** In an overview the three counts are not negative and add up to the
    number of sentiments; the widths of the negative and of the neutral bar
    are between 0 and 100; the width of the positive bar is what is left of
    100, and it is at least -1. *)
Theorem renderSentimentOverview_bars (sentiments : list Panel.Sentiment)
    (v : Panel.SentimentOverview) :
  Panel.renderSentimentOverview (Some sentiments) = Some v ->
  (0 <= Panel.negative v /\ 0 <= Panel.neutral v /\ 0 <= Panel.positive v)
  /\ Panel.negative v + Panel.neutral v + Panel.positive v
     = Z.of_nat (length sentiments)
  /\ 0 <= Panel.negPct v <= 100
  /\ 0 <= Panel.neuPct v <= 100
  /\ -1 <= Panel.posPct v <= 100
  /\ Panel.negPct v + Panel.neuPct v + Panel.posPct v = 100.
Proof.
  intros Hv.
  destruct (renderSentimentOverview_Some _ _ Hv)
    as (l & [= <-] & Hlen & Hneg & Hpos & Hneu & HnegP & HneuP & HposP & _).
  pose proof (countLabel_nonneg "negative" sentiments) as Hn0.
  pose proof (countLabel_nonneg "positive" sentiments) as Hp0.
  pose proof (countLabel_disjoint "negative" "positive" sentiments) as Hdis.
  rewrite <- Hneg, <- Hpos in *.
  assert (Panel.negative v + Panel.positive v <= Z.of_nat (length sentiments))
    as Hsum by (by apply Hdis).
  assert (0 <= Panel.negPct v <= 100) as HnB
    by (rewrite HnegP; apply percent_bounds; lia).
  assert (0 <= Panel.neuPct v <= 100) as HuB
    by (rewrite HneuP; apply percent_bounds; lia).
  assert (Panel.negPct v + Panel.neuPct v <= 101) as Htot.
  { rewrite HnegP, HneuP. apply round_sum, percentage_sum; lia. }
  repeat split; lia.
Qed.

Lemma renderSentimentOverview_bars_witness :
  exists v,
    Panel.renderSentimentOverview (Some mixedSentiments) = Some v
    /\ -1 <= Panel.posPct v <= 100.
Proof.
  eexists. split; [vm_compute; reflexivity|].
  apply (renderSentimentOverview_bars mixedSentiments).
  vm_compute. reflexivity.
Defined.

(** The width of the positive bar can be -1: of eight sentiments, one
    negative and seven neutral give 13, 88 and -1. *)
Example posPct_below_zero :
  let sentiments :=
    {| Panel.label := "negative"; Panel.score := 1 |}
    :: repeat {| Panel.label := "neutral"; Panel.score := 1 |} 7 in
  option_map (fun v => (Panel.negPct v, Panel.neuPct v, Panel.posPct v))
             (Panel.renderSentimentOverview (Some sentiments))
  = Some (13, 88, -1).
Proof. vm_compute. reflexivity. Qed.

(** The tone is Negative exactly when more than half of the sentiments are
    negative, Positive exactly when more than half are positive, and Mixed
    otherwise. *)
Theorem renderSentimentOverview_tone (sentiments : list Panel.Sentiment)
    (v : Panel.SentimentOverview) :
  Panel.renderSentimentOverview (Some sentiments) = Some v ->
  (Panel.toneLabel v = "Negative"%string
   <-> Z.of_nat (length sentiments) < 2 * Panel.negative v)
  /\ (Panel.toneLabel v = "Positive"%string
      <-> Z.of_nat (length sentiments) < 2 * Panel.positive v)
  /\ (Panel.toneLabel v = "Mixed"%string
      <-> 2 * Panel.negative v <= Z.of_nat (length sentiments)
          /\ 2 * Panel.positive v <= Z.of_nat (length sentiments)).
Proof.
  intros Hv.
  destruct (renderSentimentOverview_Some _ _ Hv)
    as (l & [= <-] & Hlen & Hneg & Hpos & Hneu & _ & _ & _ & Htone).
  pose proof (countLabel_nonneg "negative" sentiments) as Hn0.
  pose proof (countLabel_nonneg "positive" sentiments) as Hp0.
  pose proof (countLabel_disjoint "negative" "positive" sentiments) as Hdis.
  rewrite <- Hneg, <- Hpos in *.
  assert (Panel.negative v + Panel.positive v <= Z.of_nat (length sentiments))
    as Hsum by (by apply Hdis).
  rewrite Htone.
  destruct (_ <? Panel.negative v) eqn:Hn;
    [apply Z.ltb_lt in Hn
    |apply Z.ltb_ge in Hn; destruct (_ <? Panel.positive v) eqn:Hp;
     [apply Z.ltb_lt in Hp | apply Z.ltb_ge in Hp]];
    (split; [|split]); split; try discriminate; try lia; try reflexivity.
Qed.

Lemma renderSentimentOverview_tone_witness :
  exists v,
    Panel.renderSentimentOverview (Some negativeSentiments) = Some v
    /\ Panel.toneLabel v = "Negative"%string.
Proof.
  eexists. split; [vm_compute; reflexivity|].
  apply (renderSentimentOverview_tone negativeSentiments);
    [vm_compute; reflexivity|].
  simpl. lia.
Defined.

Lemma isCandidate_split (c : ClusteredEvent) :
  InsightsPanel.isCandidate c
  = (2 <=? sourceCount c) || isAlert c || Panel.isFastMoving c.
Proof. reflexivity. Qed.

Lemma storyBadges_length (c : ClusteredEvent) :
  length (Panel.storyBadges c)
  = (Nat.b2n (2 <=? sourceCount c)%Z + Nat.b2n (Panel.isFastMoving c)
     + Nat.b2n (isAlert c))%nat.
Proof.
  unfold Panel.storyBadges, Panel.isFastMoving.
  destruct (3 <=? sourceCount c) eqn:H3; destruct (2 <=? sourceCount c) eqn:H2;
    try (apply Z.leb_le in H3; apply Z.leb_gt in H2; lia);
    destruct (velocity c) as [[[] ? ?]|]; destruct (isAlert c); reflexivity.
Qed.

Lemma filter_length_b2n {A} (f : A -> bool) (l : list A) :
  length (List.filter f l) = list_sum ((fun x => Nat.b2n (f x)) <$> l).
Proof.
  induction l as [|x l IH]; simpl; [done|].
  destruct (f x); simpl; by rewrite IH.
Qed.

Lemma stories_badges_sum (g : nat -> option Panel.Sentiment)
    (clusters : list ClusteredEvent) :
  list_sum ((fun st => length (Panel.badges st))
              <$> imap (fun i c => Panel.renderStory c (g i)) clusters)
  = list_sum ((fun c => length (Panel.storyBadges c)) <$> clusters).
Proof.
  revert g. induction clusters as [|c l IH]; intros g; simpl; [done|].
  f_equal. apply (IH (fun i => g (S i))).
Qed.

(** The three statistics add up to the number of badges on display, and
    none of them exceeds the number of stories. *)
Theorem renderStats_counts_badges (clusters : list ClusteredEvent)
    (sentiments : option (list Panel.Sentiment)) :
  let stats := Panel.renderStats clusters in
  let stories := Panel.renderBreakingStories clusters sentiments in
  list_sum ((fun st => length (Panel.badges st)) <$> stories)
  = (Panel.multiSource stats + Panel.fastMoving stats + Panel.alerts stats)%nat
  /\ length stories = length clusters
  /\ (Panel.multiSource stats <= length clusters)%nat
  /\ (Panel.fastMoving stats <= length clusters)%nat
  /\ (Panel.alerts stats <= length clusters)%nat.
Proof.
  cbn zeta. unfold Panel.renderBreakingStories, Panel.renderStats.
  cbn [Panel.multiSource Panel.fastMoving Panel.alerts].
  rewrite stories_badges_sum, length_imap, !filter_length_b2n.
  split; [|split; [done|]].
  - induction clusters as [|c l IH]; [done|].
    rewrite !fmap_cons. unfold list_sum in *. cbn [foldr].
    rewrite storyBadges_length, IH. lia.
  - rewrite <- !filter_length_b2n. repeat split; apply List.filter_length_le.
Qed.

Lemma Forall_imap_story (P : Panel.Story -> Prop)
    (g : nat -> option Panel.Sentiment) (clusters : list ClusteredEvent) :
  Forall (fun c => forall s, P (Panel.renderStory c s)) clusters ->
  Forall P (imap (fun i c => Panel.renderStory c (g i)) clusters).
Proof.
  intros Hall. revert g.
  induction Hall as [|c l Hc Hl IH]; intros g; simpl; constructor; [apply Hc|].
  apply (IH (fun i => g (S i))).
Qed.

(** Every story that [selectTopStories] selects is shown with a row of
    one to three badges. *)
Theorem selected_stories_have_badges (clock : nat -> Z)
    (clusters : list ClusteredEvent) (maxCount : Z)
    (sentiments : option (list Panel.Sentiment)) :
  Forall (fun st => Panel.badgesRow st = true
                    /\ (1 <= length (Panel.badges st) <= 3)%nat)
    (Panel.renderBreakingStories
       (InsightsPanel.selectTopStories clock clusters maxCount) sentiments).
Proof.
  unfold Panel.renderBreakingStories. apply Forall_imap_story.
  apply Forall_forall. intros c Hc s.
  apply list_elem_of_In, selectTopStories_candidates in Hc as [_ Hcand].
  rewrite isCandidate_split in Hcand.
  cbn [Panel.renderStory Panel.badgesRow Panel.badges].
  rewrite storyBadges_length.
  destruct (2 <=? sourceCount c), (isAlert c), (Panel.isFastMoving c);
    try discriminate Hcand; simpl; split; (reflexivity || lia).
Qed.





(** The class of a story's sentiment dot is one of negative, positive and
    neutral, whatever labels the worker answers; it is neutral for a story
    for which the worker gave no answer. *)
Theorem renderBreakingStories_sentimentClass (clusters : list ClusteredEvent)
    (sentiments : option (list Panel.Sentiment)) (i : nat) (st : Panel.Story) :
  Panel.renderBreakingStories clusters sentiments !! i = Some st ->
  In (Panel.sentimentClass st) ["negative"; "positive"; "neutral"]%string
  /\ (Panel.sentimentAt sentiments i = None ->
      Panel.sentimentClass st = "neutral"%string).
Proof.
  unfold Panel.renderBreakingStories. rewrite list_lookup_imap.
  destruct (clusters !! i) as [c|]; [|discriminate]. intros [= <-].
  cbn [Panel.renderStory Panel.sentimentClass].
  destruct (Panel.sentimentAt sentiments i) as [s|].
  - split; [|discriminate].
    destruct (String.eqb (Panel.label s) "negative"); [simpl; tauto|].
    destruct (String.eqb (Panel.label s) "positive"); simpl; tauto.
  - split; [simpl; tauto | reflexivity].
Qed.

Lemma renderBreakingStories_sentimentClass_witness :
  exists st,
    Panel.renderBreakingStories [clusterA; clusterB] (Some mixedSentiments) !! 1%nat
    = Some st
    /\ In (Panel.sentimentClass st) ["negative"; "positive"; "neutral"]%string.
Proof.
  eexists. split; [reflexivity|].
  eapply (renderBreakingStories_sentimentClass [clusterA; clusterB]
            (Some mixedSentiments) 1%nat).
  reflexivity.
Defined.

End Rendering.

(** ** The update cycle *)

Section Update.

Lemma shown_app (done more : list Panel.Event) :
  Panel.shown (done ++ more)
  = match Panel.shown more with
    | Some c => Some c
    | None => Panel.shown done
    end.
Proof.
  unfold Panel.shown. rewrite omap_app, last_app.
  by destruct (last (omap _ more)).
Qed.

Lemma asksSummary_subProgress (f : string -> string) (step total : Z)
    (progress : list string) :
  existsb Panel.asksSummary
    (List.map (fun msg => Panel.setProgress step total (f msg)) progress)
  = false.
Proof. induction progress as [|m l IH]; simpl; [done | exact IH]. Qed.

Lemma shown_subProgress (f : string -> string) (step total : Z)
    (progress : list string) (c : Panel.Content) :
  Panel.shown
    (List.map (fun msg => Panel.setProgress step total (f msg)) progress
     ++ [Panel.SetContent c])
  = Some c.
Proof. rewrite shown_app. reflexivity. Qed.

(** The case analysis of [updateInsights]: hidden; no clusters; no story;
    and, with stories, per worker and per outcome of the brief. *)
Ltac update_cases env st clusters :=
  unfold Panel.updateInsights;
  set (important := InsightsPanel.selectTopStories (Panel.clock env) clusters 8)
    in *;
  set (now := Panel.clock env _) in *;
  destruct (Panel.isHidden st) eqn:Hhidden;
  [|destruct (length clusters =? 0)%nat eqn:Hnone;
    [|destruct (length important =? 0)%nat eqn:Hstories;
      [|destruct (Panel.isAvailable env) eqn:Havailable;
        (destruct (negb (Panel.truthy (Panel.cachedBrief st))
                   || (Panel.BRIEF_COOLDOWN_MS <? now - Panel.lastBriefUpdate st))
           eqn:Hdue;
         [destruct (Panel.generateSummary env (List.map primaryTitle important))
            as [progress|progress [result|]] eqn:Hsummary|])]]].

(** While the panel holds a brief that is not older than the cooldown, an
    update does not ask the summarization service and leaves the fields
    of the panel as they are. *)
Theorem updateInsights_cooldown (env : Panel.Env) (st : Panel.State)
    (clusters : list ClusteredEvent) :
  Panel.truthy (Panel.cachedBrief st) = true ->
  Panel.clock env (length (List.filter InsightsPanel.isCandidate clusters))
  - Panel.lastBriefUpdate st <= Panel.BRIEF_COOLDOWN_MS ->
  existsb Panel.asksSummary (snd (Panel.updateInsights env st clusters)) = false
  /\ fst (Panel.updateInsights env st clusters) = st.
Proof.
  intros Hbrief Hfresh.
  assert (negb (Panel.truthy (Panel.cachedBrief st))
          || (Panel.BRIEF_COOLDOWN_MS
              <? Panel.clock env
                   (length (List.filter InsightsPanel.isCandidate clusters))
                 - Panel.lastBriefUpdate st) = false) as Hnot.
  { rewrite Hbrief. simpl. apply Z.ltb_ge. exact Hfresh. }
  update_cases env st clusters; try congruence; split; reflexivity.
Qed.

Lemma updateInsights_cooldown_witness :
  existsb Panel.asksSummary
    (snd (Panel.updateInsights (sampleEnv 121000) briefedPanel
            [clusterA; clusterB])) = false
  /\ fst (Panel.updateInsights (sampleEnv 121000) briefedPanel
            [clusterA; clusterB]) = briefedPanel.
Proof.
  apply updateInsights_cooldown; [reflexivity|].
  vm_compute. discriminate.
Defined.

(** The fields of the panel change only when the summarization service
    was asked and answered with a result; then the result and the instant
    read before the call are stored.  A rejected or empty answer, and
    whatever the sentiment worker does, leave the fields as they are. *)
Theorem updateInsights_fields (env : Panel.Env) (st : Panel.State)
    (clusters : list ClusteredEvent) :
  fst (Panel.updateInsights env st clusters) = st
  \/ exists titles progress result,
       In (Panel.GenerateSummary titles)
          (snd (Panel.updateInsights env st clusters))
       /\ Panel.generateSummary env titles
          = Panel.SummaryResolved progress (Some result)
       /\ fst (Panel.updateInsights env st clusters)
          = {| Panel.isHidden := Panel.isHidden st;
               Panel.lastBriefUpdate :=
                 Panel.clock env
                   (length (List.filter InsightsPanel.isCandidate clusters));
               Panel.cachedBrief := Some (Panel.summary result);
               Panel.briefProvider := Some (Panel.provider result) |}.
Proof.
  update_cases env st clusters; try (left; reflexivity);
    right; exists (List.map primaryTitle important), progress, result;
    (split; [|split; [exact Hsummary | reflexivity]]);
    cbn [snd]; rewrite !in_app_iff; simpl; tauto.
Qed.

Lemma length_zero_nil {A} (l : list A) : (length l =? 0)%nat = true -> l = [].
Proof. destruct l; [done | discriminate]. Qed.

Lemma length_pos_cons {A} (l : list A) : (length l =? 0)%nat = false -> l <> [].
Proof. by destruct l. Qed.

Lemma stories_at_most_eight (clock : nat -> Z) (clusters : list ClusteredEvent)
    (sentiments : option (list Panel.Sentiment)) :
  (length (Panel.renderBreakingStories
             (InsightsPanel.selectTopStories clock clusters 8) sentiments)
   <= 8)%nat.
Proof.
  unfold Panel.renderBreakingStories. rewrite length_imap.
  unfold InsightsPanel.selectTopStories.
  pose proof (selectLoop_length 8
                (InsightsPanel.sort InsightsPanel.byScoreDesc
                   (imap (fun i c =>
                            {| InsightsPanel.cluster := c;
                               InsightsPanel.score :=
                                 InsightsPanel.getImportanceScore (clock i) c |})
                         (List.filter InsightsPanel.isCandidate clusters)))
                [] ∅) as Hlen.
  simpl in Hlen. lia.
Qed.

(** What a visible panel shows when an update is over.  It is never a
    progress bar.  It is the waiting notice exactly for an empty input, the
    no-stories notice when no story is selected, the failure notice only
    when the summarization service rejected, and otherwise the insights:
    the stories that [selectTopStories] selects with the bound 8, at most
    eight of them, whatever the two services answer, and the brief that the
    panel holds after the update. *)
Theorem updateInsights_shown (env : Panel.Env) (st : Panel.State)
    (clusters : list ClusteredEvent) :
  Panel.isHidden st = false ->
  let important :=
    InsightsPanel.selectTopStories (Panel.clock env) clusters 8 in
  match Panel.shown (snd (Panel.updateInsights env st clusters)) with
  | Some Panel.Waiting => clusters = []
  | Some Panel.NoStories => clusters <> [] /\ important = []
  | Some (Panel.Insights brief overview stats stories) =>
      important <> []
      /\ stats = Panel.renderStats important
      /\ (exists sentiments,
            stories = Panel.renderBreakingStories important sentiments
            /\ overview = Panel.renderSentimentOverview sentiments
            /\ (Panel.isAvailable env = false -> sentiments = None))
      /\ (length stories <= 8)%nat
      /\ match brief with
         | Some b =>
             Panel.cachedBrief (fst (Panel.updateInsights env st clusters))
             = Some (Panel.briefText b)
         | None =>
             Panel.truthy
               (Panel.cachedBrief (fst (Panel.updateInsights env st clusters)))
             = false
         end
  | Some Panel.AnalysisFailed =>
      exists progress,
        Panel.generateSummary env (List.map primaryTitle important)
        = Panel.SummaryRejected progress
  | Some (Panel.Progress _ _ _ _) | None => False
  end.
Proof.
  intros Hvisible. cbn zeta.
  update_cases env st clusters; [congruence|..]; cbn [fst snd];
    rewrite ?app_assoc, ?shown_app; cbn [Panel.shown omap last option_bind
      Panel.renderInsights Panel.cachedBrief Panel.setProgress];
    try (by apply length_zero_nil);
    try (split; [by apply length_pos_cons | by apply length_zero_nil]);
    try (by eexists).
  all: split; [by apply length_pos_cons|]; split; [reflexivity|].
  all: split; [eexists; split; [reflexivity|]; split; [reflexivity|];
               first [discriminate | reflexivity]|].
  all: split; [apply stories_at_most_eight|].
  all: try (destruct (Panel.cachedBrief st) as [[|a b]|]; reflexivity).
  all: destruct (Panel.summary result); reflexivity.
Qed.

Lemma updateInsights_shown_witness :
  match Panel.shown
          (snd (Panel.updateInsights (sampleEnv 5000) (Panel.new false)
                  [clusterA; quietCluster; clusterB])) with
  | Some (Panel.Insights _ _ _ stories) => (length stories <= 8)%nat
  | _ => False
  end.
Proof.
  pose proof (updateInsights_shown (sampleEnv 5000) (Panel.new false)
                [clusterA; quietCluster; clusterB] eq_refl) as H.
  cbn zeta in H.
  destruct (Panel.shown _) as [[| | |brief overview stats stories|]|];
    try exact H; try (vm_compute in H; congruence).
  - destruct H as [_ H]. vm_compute in H. discriminate.
  - apply H.
  - destruct H as [p H]. discriminate H.
Defined.

Lemma filter_subProgress (f : Panel.Event -> bool) (g : string -> string)
    (step total : Z) (progress : list string) :
  (forall c, f (Panel.SetContent c) = false) ->
  List.filter f
    (List.map (fun msg => Panel.setProgress step total (g msg)) progress)
  = [].
Proof.
  intros Hf. induction progress as [|m l IH]; [done|].
  cbn [List.map List.filter]. unfold Panel.setProgress at 1.
  by rewrite Hf.
Qed.

(** An update asks each of the two services at most once; it asks the
    sentiment worker only when the worker is available, and neither
    service when no story is selected. *)
Theorem updateInsights_service_calls (env : Panel.Env) (st : Panel.State)
    (clusters : list ClusteredEvent) :
  let done := snd (Panel.updateInsights env st clusters) in
  (length (List.filter asksSentiment done) <= 1)%nat
  /\ (length (List.filter Panel.asksSummary done) <= 1)%nat
  /\ (Panel.isAvailable env = false -> List.filter asksSentiment done = [])
  /\ (InsightsPanel.selectTopStories (Panel.clock env) clusters 8 = [] ->
      List.filter callsService done = []).
Proof.
  cbn zeta.
  update_cases env st clusters; cbn [snd];
    rewrite ?List.filter_app, ?filter_subProgress by done;
    cbn [List.filter asksSentiment Panel.asksSummary callsService orb
         Panel.setProgress Panel.renderInsights app length];
    repeat split; try lia; try discriminate; try reflexivity;
    intros Hnil; apply length_pos_cons in Hstories; congruence.
Qed.

Lemma stored_brief_instant (env : Panel.Env) (st : Panel.State)
    (clusters : list ClusteredEvent) :
  fst (Panel.updateInsights env st clusters) <> st ->
  Panel.lastBriefUpdate (fst (Panel.updateInsights env st clusters))
  = Panel.clock env (length (List.filter InsightsPanel.isCandidate clusters)).
Proof.
  update_cases env st clusters; cbn [fst]; try congruence; reflexivity.
Qed.

(** The summarization service is asked at most once per cooldown: after an
    update that stored a brief, an update whose clock reads no more than
    120000 ms later does not ask it. *)
Theorem summary_once_per_cooldown (env1 env2 : Panel.Env) (st : Panel.State)
    (clusters1 clusters2 : list ClusteredEvent) :
  let st1 := fst (Panel.updateInsights env1 st clusters1) in
  st1 <> st ->
  Panel.truthy (Panel.cachedBrief st1) = true ->
  Panel.clock env2 (length (List.filter InsightsPanel.isCandidate clusters2))
  - Panel.clock env1 (length (List.filter InsightsPanel.isCandidate clusters1))
  <= 120000 ->
  existsb Panel.asksSummary (snd (Panel.updateInsights env2 st1 clusters2))
  = false.
Proof.
  cbn zeta. intros Hstored Hbrief Hsoon.
  rewrite <- (stored_brief_instant env1 st clusters1 Hstored) in Hsoon.
  generalize dependent (fst (Panel.updateInsights env1 st clusters1)).
  intros st1 _ Hbrief Hsoon.
  assert (negb (Panel.truthy (Panel.cachedBrief st1))
          || (Panel.BRIEF_COOLDOWN_MS
              <? Panel.clock env2
                   (length (List.filter InsightsPanel.isCandidate clusters2))
                 - Panel.lastBriefUpdate st1) = false) as Hnot.
  { rewrite Hbrief. simpl. apply Z.ltb_ge. exact Hsoon. }
  update_cases env2 st1 clusters2; try congruence; reflexivity.
Qed.

Lemma summary_once_per_cooldown_witness :
  existsb Panel.asksSummary
    (snd (Panel.updateInsights (sampleEnv 125000)
            (fst (Panel.updateInsights (sampleEnv 5000) (Panel.new false)
                    [clusterA; clusterB]))
            [clusterB; clusterA]))
  = false.
Proof.
  apply (summary_once_per_cooldown (sampleEnv 5000) (sampleEnv 125000)
           (Panel.new false) [clusterA; clusterB] [clusterB; clusterA]).
  - vm_compute. discriminate.
  - vm_compute. reflexivity.
  - vm_compute. discriminate.
Defined.

(** The cooldown does not cover a missing brief: a visible panel that
    holds no brief asks the summarization service in every update that
    selects a story, however soon after the last one. *)
Theorem updateInsights_asks_without_brief (env : Panel.Env) (st : Panel.State)
    (clusters : list ClusteredEvent) :
  Panel.isHidden st = false ->
  Panel.truthy (Panel.cachedBrief st) = false ->
  InsightsPanel.selectTopStories (Panel.clock env) clusters 8 <> [] ->
  In (Panel.GenerateSummary
        (List.map primaryTitle
           (InsightsPanel.selectTopStories (Panel.clock env) clusters 8)))
     (snd (Panel.updateInsights env st clusters)).
Proof.
  intros Hvisible Hbrief Hsome.
  update_cases env st clusters; try congruence;
    try (apply length_zero_nil in Hnone; subst clusters; by destruct Hsome);
    try (apply length_zero_nil in Hstories; congruence);
    try (rewrite Hbrief in Hdue; discriminate);
    cbn [snd]; rewrite !in_app_iff; simpl; tauto.
Qed.

Lemma updateInsights_asks_without_brief_witness :
  In (Panel.GenerateSummary
        (List.map primaryTitle
           (InsightsPanel.selectTopStories (Panel.clock (sampleEnv 10))
              [clusterB] 8)))
     (snd (Panel.updateInsights (sampleEnv 10) (Panel.new false) [clusterB])).
Proof.
  apply updateInsights_asks_without_brief;
    [reflexivity | reflexivity | vm_compute; discriminate].
Defined.

Lemma updateInsights_hidden (env : Panel.Env) (st : Panel.State)
    (clusters : list ClusteredEvent) :
  Panel.isHidden st = true -> Panel.updateInsights env st clusters = (st, []).
Proof. intros H. unfold Panel.updateInsights. by rewrite H. Qed.

(** A panel made on a mobile device stays silent: no sequence of updates
    sets its content, asks a service or changes its fields. *)
Theorem mobile_panel_silent (calls : list (Panel.Env * list ClusteredEvent)) :
  runUpdates calls (Panel.new true) = (Panel.new true, []).
Proof.
  induction calls as [|[env clusters] calls IH]; [done|].
  cbn [runUpdates]. rewrite updateInsights_hidden by done. by rewrite IH.
Qed.

End Update.
